(** * Venue recommender notebook (5.venue-recommender.ipynb)

    A shallow embedding of the notebook's functions [geturl], [score],
    [html_template], [recommender] and [recommender_api], together with the
    parts of their environment they talk to: the Cassandra table
    [lbsn.kmeans_topvenues], the fitted k-means model [ml], the Wikipedia
    opensearch service and Python's [json] module on flat dictionaries.

    Conventions.
    - A Python [str] is a [string]; one [ascii] stands for one character
      (the code points below 256).
    - A Python [float] is the 64-bit pattern of its IEEE-754 double, kept
      in a [Z].  The notebook never computes with floats, it only carries
      them from the request to the model and from the table to the
      rendered text.
    - A Python [dict] with string keys is a [gmap string pyval].
    - Effects (the Cassandra session, the HTTP call, exceptions) are
      threaded through a state-and-exception monad over [world]. *)

From Stdlib Require Import ZArith String Ascii Decimal DecimalString DecimalZ.
From stdpp Require Import base option list strings gmap fin_maps.

Local Open Scope Z_scope.

(** ** Python values and exceptions *)

(** The values a record can hold: what a column of the table gives
    ([None], [int], [float], [str]) and what [json.loads] can give
    besides ([bool], lists and dictionaries, nested at will). *)
#[warnings="-register-all"] Inductive pyval : Type :=
  | PNone
  | PInt (z : Z)
  | PFloat (bits : Z)
  | PStr (s : string)
  | PBool (b : bool)
  | PList (items : list pyval)
  | PDict (items : list (string * pyval)).

#[global] Instance pyval_eq_dec : EqDecision pyval.
Proof.
  refine (fix go (x y : pyval) {struct x} : Decision (x = y) :=
    match x, y with
    | PNone, PNone => left eq_refl
    | PInt a, PInt b => cast_if (decide (a = b))
    | PFloat a, PFloat b => cast_if (decide (a = b))
    | PStr a, PStr b => cast_if (decide (a = b))
    | PBool a, PBool b => cast_if (decide (a = b))
    | PList l, PList k => cast_if (@list_eq_dec _ go l k)
    | PDict l, PDict k =>
        cast_if (@list_eq_dec _ (@prod_eq_dec _ _ _ go) l k)
    | _, _ => right _
    end); congruence.
Defined.

(** The exceptions the notebook can end with; [CqlError] stands for the
    driver's rejection of a statement. *)
Inductive exn : Type :=
  | NameError
  | ValueError
  | IndexError
  | KeyError (k : string)
  | TypeError
  | OSError
  | CqlError (stmt : string).

Inductive result (A : Type) : Type :=
  | Ok (a : A)
  | Raise (e : exn).
Arguments Ok {A} a.
Arguments Raise {A} e.

(** The double quote character, and the one-character strings the
    notebook's literals are built from. *)
Definition DQ : ascii := "034"%char.
Definition dquote : string := String DQ EmptyString.

(** ** The outside world *)

(** What one call of the opensearch endpoint amounts to inside the [try]
    block of [geturl]: either some statement of the block raises
    (transport error, undecodable or unparsable body, no element [3], an
    element [3] that cannot be indexed), or element [3] of the decoded
    response is a sequence with these elements.  The elements are
    whatever [json.loads] made of them: strings for the service as it
    is documented, but any JSON value for an arbitrary response. *)
Inductive search_outcome : Type :=
  | LookupRaises
  | LookupResults (results : list pyval).

(** What the notebook does to the outside, in order: the prepared SELECT
    with its bound values, the UPDATE with its text, the HTTP request
    with its url. *)
Inductive event : Type :=
  | EvSelect (cid : Z) (limit : Z)
  | EvUpdate (stmt : string)
  | EvUrlopen (url : string).

(** - [ml]: the global of that name, [None] as long as the loading cell
      has not run; [predict lon lat] is [ml.predict([[lon, lat]])[0]],
      [None] when the model refuses the point.
    - [columns]: the keys of
      [cluster.metadata.keyspaces['lbsn'].tables['kmeans_topvenues'].columns],
      which is also the order of the values in a row of [SELECT *].
    - [rows]: the table.
    - [opensearch]: what the service answers to a request url.
    - [trace]: the events so far. *)
Record world : Type := World {
  ml : option (Z → Z → option Z);
  columns : list string;
  rows : list (list pyval);
  opensearch : string → search_outcome;
  trace : list event
}.

Definition with_rows (rs : list (list pyval)) (w : world) : world :=
  World (ml w) (columns w) rs (opensearch w) (trace w).

Definition with_opensearch (f : string → search_outcome) (w : world) : world :=
  World (ml w) (columns w) (rows w) f (trace w).

Definition with_trace (t : list event) (w : world) : world :=
  World (ml w) (columns w) (rows w) (opensearch w) t.

(** ** The monad of notebook computations *)

Definition M (A : Type) : Type := world → result A * world.

Definition ret {A} (a : A) : M A := λ w, (Ok a, w).

Definition raise {A} (e : exn) : M A := λ w, (Raise e, w).

Definition bind {A B} (m : M A) (k : A → M B) : M B :=
  λ w, match m w with
       | (Ok a, w') => k a w'
       | (Raise e, w') => (Raise e, w')
       end.

Notation "'let*' x ':=' m 'in' k" := (bind m (λ x, k))
  (at level 10, x name, m at level 100, k at level 200).

Definition emit (e : event) : M unit :=
  λ w, (Ok tt, with_trace (trace w ++ [e]) w).

(** [try: body  finally: return default-or-assigned]: a [return] inside
    [finally] discards whatever exception the body raised. *)
Definition finally_return {A} (default : A) (body : M A) : M A :=
  λ w, match body w with
       | (Ok a, w') => (Ok a, w')
       | (Raise _, w') => (Ok default, w')
       end.

Definition getitem (d : gmap string pyval) (k : string) : M pyval :=
  match d !! k with
  | Some v => ret v
  | None => raise (KeyError k)
  end.

(** [dict(pairs)]: later pairs overwrite earlier ones. *)
Definition dict_of_items (l : list (string * pyval)) : gmap string pyval :=
  fold_left (λ m kv, <[kv.1 := kv.2]> m) l ∅.

(** ** Integers and floats as text *)

(** [str(n)] and [repr(n)] of a Python [int]. *)
Definition int_repr (z : Z) : string := NilZero.string_of_int (Z.to_int z).

(** [int(s)] on a decimal literal. *)
Definition int_of_str (s : string) : option Z :=
  Z.of_int <$> NilZero.int_of_string s.

Definition float_exponent (bits : Z) : Z := Z.land (Z.shiftr bits 52) 0x7FF.
Definition float_mantissa (bits : Z) : Z := Z.land bits 0xFFFFFFFFFFFFF.
Definition float_is_nan (bits : Z) : bool :=
  (float_exponent bits =? 0x7FF) && negb (float_mantissa bits =? 0).
Definition float_is_zero (bits : Z) : bool :=
  Z.land bits 0x7FFFFFFFFFFFFFFF =? 0.
Definition float_inf : Z := 0x7FF0000000000000.
Definition float_neginf : Z := 0xFFF0000000000000.
Definition float_nan : Z := 0x7FF8000000000000.

(** Truth value of an object, as tested by [x if url else y]. *)
Definition truthy (v : pyval) : bool :=
  match v with
  | PNone => false
  | PInt z => negb (z =? 0)
  | PFloat b => negb (float_is_zero b)
  | PStr s => negb (String.eqb s "")
  | PBool b => b
  | PList l => match l with [] => false | _ => true end
  | PDict l => match l with [] => false | _ => true end
  end.

(** ** The table lbsn.kmeans_topvenues *)

Fixpoint col_index (cols : list string) (c : string) : option nat :=
  match cols with
  | [] => None
  | k :: ks => if String.eqb k c then Some 0%nat else S <$> col_index ks c
  end.

Definition row_col (cols : list string) (c : string) (r : list pyval)
  : option pyval :=
  i ← col_index cols c; r !! i.

Definition row_set (cols : list string) (c : string) (v : pyval)
  (r : list pyval) : list pyval :=
  match col_index cols c with
  | Some i => <[i := v]> r
  | None => r
  end.

Definition in_partition (cols : list string) (cid : Z) (r : list pyval) : Prop :=
  row_col cols "cid" r = Some (PInt cid).

#[global] Instance in_partition_dec cols cid r : Decision (in_partition cols cid r).
Proof. unfold in_partition. apply _. Defined.

(** The rows stored under the key [cid], in the order of the table. *)
Definition cluster_partition (w : world) (cid : Z) : list (list pyval) :=
  filter (in_partition (columns w) cid) (rows w).

(** [SELECT * from lbsn.kmeans_topvenues where cid = ? LIMIT ?] *)
Definition select_topvenues (w : world) (cid limit : Z) : list (list pyval) :=
  take (Z.to_nat limit) (cluster_partition w cid).

(** The row an [UPDATE] creates when no row has the key. *)
Definition fresh_row (cols : list string) (cid : Z) (url : pyval) : list pyval :=
  (λ c, if String.eqb c "cid" then PInt cid
        else if String.eqb c "url" then url else PNone) <$> cols.

(** [UPDATE ... SET url = ... WHERE cid = ...]: the link of every row
    with the key, or a new row when there is none. *)
Definition update_url (cols : list string) (cid : Z) (url : pyval)
  (rs : list (list pyval)) : list (list pyval) :=
  if decide (Exists (in_partition cols cid) rs)
  then (λ r, if decide (in_partition cols cid r)
             then row_set cols "url" url r else r) <$> rs
  else rs ++ [fresh_row cols cid url].

(** *** The one CQL statement the notebook builds as text *)

Fixpoint strip_prefix (p s : string) : option string :=
  match p with
  | EmptyString => Some s
  | String a p' =>
      match s with
      | EmptyString => None
      | String b s' => if Ascii.eqb a b then strip_prefix p' s' else None
      end
  end.

(** Body of a CQL string literal, after its opening quote: a doubled
    quote stands for a quote, a single one ends the literal. *)
Fixpoint cql_string_body (s : string) : option (string * string) :=
  match s with
  | EmptyString => None
  | String c rest =>
      if Ascii.eqb c "'" then
        match rest with
        | String c' rest' =>
            if Ascii.eqb c' "'"
            then prod_map (String "'") id <$> cql_string_body rest'
            else Some (EmptyString, rest)
        | EmptyString => Some (EmptyString, rest)
        end
      else prod_map (String c) id <$> cql_string_body rest
  end.

(** A text without single quote: as a CQL literal it stands for itself. *)
Fixpoint quote_free (s : string) : bool :=
  match s with
  | EmptyString => true
  | String c rest => negb (Ascii.eqb c "'") && quote_free rest
  end.

Definition update_prefix : string := "UPDATE lbsn.kmeans_topvenues SET url = '".
Definition update_where : string := " WHERE cid = ".

(** [session.execute(cql_stmt)] for the statement of [score].  The model
    understands statements of the shape
    [UPDATE lbsn.kmeans_topvenues SET url = '<literal>' WHERE cid = <int>]
    and rejects every other text. *)
Definition parse_update (stmt : string) : option (string * Z) :=
  rest ← strip_prefix update_prefix stmt;
  '(lit, rest') ← cql_string_body rest;
  ctext ← strip_prefix update_where rest';
  cid ← int_of_str ctext;
  Some (lit, cid).

Definition session_execute_text (stmt : string) : M unit :=
  let* _ := emit (EvUpdate stmt) in
  match parse_update stmt with
  | Some (lit, cid) =>
      λ w, match col_index (columns w) "url", col_index (columns w) "cid" with
           | Some _, Some _ =>
               (Ok tt, with_rows (update_url (columns w) cid (PStr lit) (rows w)) w)
           | _, _ => (Raise (CqlError stmt), w)
           end
  | None => raise (CqlError stmt)
  end.

(** [session.execute(cql_prepared.bind((cl, limit)))] *)
Definition session_execute_select (cid limit : Z) : M (list (list pyval)) :=
  let* _ := emit (EvSelect cid limit) in
  λ w, (Ok (select_topvenues w cid limit), w).

(** [rows[0]] *)
Definition first_row (rs : list (list pyval)) : M (list pyval) :=
  match rs with
  | r :: _ => ret r
  | [] => raise IndexError
  end.

(** ** json.dumps on a flat dictionary *)

Definition hex_digit (n : N) : ascii :=
  if (n <? 10)%N then ascii_of_N (48 + n) else ascii_of_N (87 + n).

(** [ESCAPE_ASCII] with [ESCAPE_DCT]: quote, backslash and the short
    escapes, every other character outside [' '..'~'] as [\u00xx]. *)
Definition json_escape_char (c : ascii) : string :=
  let n := N_of_ascii c in
  if Ascii.eqb c DQ then String "\" dquote
  else if Ascii.eqb c "\" then "\\"
  else if (n =? 10)%N then "\n"
  else if (n =? 13)%N then "\r"
  else if (n =? 9)%N then "\t"
  else if (n =? 8)%N then "\b"
  else if (n =? 12)%N then "\f"
  else if ((32 <=? n) && (n <=? 126))%N then String c EmptyString
  else "\u00" +:+ String (hex_digit (n / 16))
                   (String (hex_digit (n mod 16)) EmptyString).

Fixpoint json_escape (s : string) : string :=
  match s with
  | EmptyString => EmptyString
  | String c s' => json_escape_char c +:+ json_escape s'
  end.

Definition json_string (s : string) : string :=
  dquote +:+ json_escape s +:+ dquote.

(** ** repr of a string

    [repr(s)], as it appears in the [str] of a list or a dictionary:
    single quotes unless the string holds a single quote and no double
    one; the quote in use and the backslash escaped, tab, newline and
    return as short escapes, the other characters that are not printable
    as [\xhh]. *)
Fixpoint has_char (c : ascii) (s : string) : bool :=
  match s with
  | EmptyString => false
  | String a s' => Ascii.eqb a c || has_char c s'
  end.

Definition str_repr_char (q c : ascii) : string :=
  let n := N_of_ascii c in
  if Ascii.eqb c q || Ascii.eqb c "\" then String "\" (String c EmptyString)
  else if (n =? 9)%N then "\t"
  else if (n =? 10)%N then "\n"
  else if (n =? 13)%N then "\r"
  else if ((n <? 32) || (n =? 127) || ((128 <=? n) && (n <=? 160))
           || (n =? 173))%N
  then "\x" +:+ String (hex_digit (n / 16))
                  (String (hex_digit (n mod 16)) EmptyString)
  else String c EmptyString.

Fixpoint str_repr_body (q : ascii) (s : string) : string :=
  match s with
  | EmptyString => EmptyString
  | String c s' => str_repr_char q c +:+ str_repr_body q s'
  end.

Definition str_repr (s : string) : string :=
  let q := if has_char "'" s && negb (has_char DQ s) then DQ else "'"%char in
  String q (str_repr_body q s) +:+ String q EmptyString.

(** ** The notebook's own example

    The row the notebook displays for [score(-74.01, 40.7)], and stand-ins
    for the library functions that are exact on the values of that
    example. *)

Definition lon_m74_01 : Z := 0xc05280a3d70a3d71.         (* -74.01 *)
Definition lat_40_7 : Z := 0x404459999999999a.           (* 40.7 *)
Definition lat_battery_park : Z := 0x40445a0c30958022.   (* 40.7034970026 *)
Definition lon_battery_park : Z := 0xc0528106fbfffaa8.   (* -74.0160512924 *)

Definition sample_float_table : list (Z * string) :=
  [ (lon_m74_01, "-74.01"); (lat_40_7, "40.7");
    (lat_battery_park, "40.7034970026");
    (lon_battery_park, "-74.0160512924") ].

Definition sample_float_repr (b : Z) : string :=
  match list_find (λ p, p.1 = b) sample_float_table with
  | Some (_, p) => p.2
  | None => "0.0"
  end.

Definition sample_float_of_str (s : string) : option Z :=
  match list_find (λ p, p.2 = s) sample_float_table with
  | Some (_, p) => Some p.1
  | None => None
  end.

Fixpoint sample_quote (s : string) : string :=
  match s with
  | EmptyString => EmptyString
  | String c rest =>
      if Ascii.eqb c " " then "%20" +:+ sample_quote rest
      else String c (sample_quote rest)
  end.

Definition sample_predict (lon lat : Z) : option Z :=
  if (lon =? float_nan) || (lat =? float_nan) then None
  else if (lon =? lon_m74_01) && (lat =? lat_40_7) then Some 16
  else Some 3.

Definition sample_columns : list string :=
  ["cid"; "count"; "lat"; "lon"; "name"; "url"].

Definition battery_park_row (url : pyval) : list pyval :=
  [PInt 16; PInt 133; PFloat lat_battery_park; PFloat lon_battery_park;
   PStr "Battery Park"; url].

Definition battery_park_url : string :=
  "https://en.wikipedia.org/wiki/Battery_Park".

Definition sample_world (url : pyval) (service : string → search_outcome)
  : world :=
  World (Some sample_predict) sample_columns [battery_park_row url] service [].

Definition battery_park_record (url : pyval) : gmap string pyval :=
  dict_of_items (zip sample_columns (battery_park_row url)).

Definition service_up : string → search_outcome :=
  λ _, LookupResults [PStr battery_park_url].
Definition service_down : string → search_outcome := λ _, LookupRaises.
Definition service_no_result : string → search_outcome :=
  λ _, LookupResults [].

(** A service whose first result is [null]. *)
Definition service_null : string → search_outcome :=
  λ _, LookupResults [PNone].

(** A service whose link holds a single quote, and a row whose name is
    null. *)
Definition quoted_url : string :=
  "https://en.wikipedia.org/wiki/Battery_Park_(St._George's)".
Definition service_quoted : string → search_outcome :=
  λ _, LookupResults [PStr quoted_url].
Definition nameless_row : list pyval :=
  [PInt 16; PInt 133; PFloat lat_battery_park; PFloat lon_battery_park;
   PNone; PNone].

Section Notebook.

(** Library functions the notebook calls and does not define. *)
Variable quote : string → string.          (* urllib.parse.quote on a str *)
Variable float_repr : Z → string.          (* float.__repr__ *)
Variable float_of_str : string → option Z. (* float(s); None: ValueError *)

(** [repr(x)]. *)
Fixpoint py_repr (v : pyval) : string :=
  match v with
  | PNone => "None"
  | PInt z => int_repr z
  | PFloat b => float_repr b
  | PStr s => str_repr s
  | PBool b => if b then "True" else "False"
  | PList l => "[" +:+ String.concat ", " (map py_repr l) +:+ "]"
  | PDict l =>
      "{" +:+ String.concat ", "
                (map (λ kv, let '(k, x) := kv in
                            str_repr k +:+ ": " +:+ py_repr x) l)
          +:+ "}"
  end.

(** [str(x)], the text [str.format] substitutes for a field: the
    string itself, and the [repr] of anything else. *)
Definition py_str (v : pyval) : string :=
  match v with
  | PNone => "None"
  | PInt z => int_repr z
  | PFloat b => float_repr b
  | PStr s => s
  | PBool _ | PList _ | PDict _ => py_repr v
  end.

(** A service none of whose answers has a single quote in its text. *)
Definition service_quote_free (w : world) : Prop :=
  ∀ q u us, opensearch w q = LookupResults (u :: us) →
            quote_free (py_str u) = true.

(** [floatstr] of json.encoder. *)
Definition json_floatstr (b : Z) : string :=
  if float_is_nan b then "NaN"
  else if b =? float_inf then "Infinity"
  else if b =? float_neginf then "-Infinity"
  else float_repr b.

Fixpoint json_value (v : pyval) : string :=
  match v with
  | PNone => "null"
  | PInt z => int_repr z
  | PFloat b => json_floatstr b
  | PStr s => json_string s
  | PBool b => if b then "true" else "false"
  | PList l => "[" +:+ String.concat ", " (map json_value l) +:+ "]"
  | PDict l =>
      "{" +:+ String.concat ", "
                (map (λ kv, let '(k, x) := kv in
                            json_string k +:+ ": " +:+ json_value x) l)
          +:+ "}"
  end.

Definition json_item (kv : string * pyval) : string :=
  json_string kv.1 +:+ ": " +:+ json_value kv.2.

Fixpoint json_items (l : list (string * pyval)) : string :=
  match l with
  | [] => EmptyString
  | [kv] => json_item kv
  | kv :: l' => json_item kv +:+ ", " +:+ json_items l'
  end.

Definition json_dumps (d : gmap string pyval) : string :=
  "{" +:+ json_items (map_to_list d) +:+ "}".

(** *** geturl *)

Definition opensearch_url (q : string) : string :=
  "https://en.wikipedia.org/w/api.php?action=opensearch&search=" +:+ q
    +:+ "&limit=1&format=json".

(** The body of the [try] block: the request, and [...[3][0]], which is
    assigned as it comes. *)
Definition geturl_try (s : string) : M pyval :=
  let url := opensearch_url s in
  let* _ := emit (EvUrlopen url) in
  λ w, match opensearch w url with
       | LookupRaises => (Raise OSError, w)
       | LookupResults [] => (Raise IndexError, w)
       | LookupResults (u :: _) => (Ok u, w)
       end.

(** [quote] is applied before the [try]; on anything but a string it
    raises.  The [return] of the [finally] gives [wiki_url]: what the
    block assigned, or the empty string when the block raised. *)
Definition geturl (s : pyval) : M pyval :=
  match s with
  | PStr name =>
      let s := quote name in
      finally_return (PStr "") (geturl_try s)
  | _ => raise TypeError
  end.

(** What a call of [geturl] on [name] comes back with. *)
Definition looked_up (w : world) (name : string) : pyval :=
  match opensearch w (opensearch_url (quote name)) with
  | LookupResults (u :: _) => u
  | _ => PStr ""
  end.

(** The external lookup came back with nothing usable: the [try] block
    raises, because the call failed or because no result is listed. *)
Definition lookup_fails (o : search_outcome) : Prop :=
  o = LookupRaises ∨ o = LookupResults [].

(** *** score *)

(** [ml.predict([[lon, lat]])[0]] *)
Definition ml_predict (lon lat : Z) : M Z :=
  λ w, match ml w with
       | None => (Raise NameError, w)
       | Some predict =>
           match predict lon lat with
           | Some cl => (Ok cl, w)
           | None => (Raise ValueError, w)
           end
       end.

Definition metadata_columns : M (list string) := λ w, (Ok (columns w), w).

(** The first half of [score]: classify, query, package the first row. *)
Definition score_lookup (lon lat : Z) : M (gmap string pyval) :=
  let* cl := ml_predict lon lat in
  let* keys := metadata_columns in
  let* rows := session_execute_select cl 1 in
  let* row := first_row rows in
  ret (dict_of_items (zip keys row)).

(** The second half: [if d['url'] == None: ...; return d]. *)
Definition score_enrich (d : gmap string pyval) : M (gmap string pyval) :=
  let* url := getitem d "url" in
  if decide (url = PNone) then
    let* name := getitem d "name" in
    let* u := geturl name in
    let d := <["url" := u]> d in
    let* url := getitem d "url" in
    let* cid := getitem d "cid" in
    let cql_stmt := update_prefix +:+ py_str url +:+ "'" +:+ update_where
                      +:+ py_str cid in
    let* _ := session_execute_text cql_stmt in
    ret d
  else ret d.

Definition score (lon lat : Z) : M (gmap string pyval) :=
  let* d := score_lookup lon lat in
  score_enrich d.

(** One request after the other: [score] on each coordinate in turn. *)
Fixpoint score_all (coords : list (Z * Z)) : M (list (gmap string pyval)) :=
  match coords with
  | [] => ret []
  | c :: rest =>
      let* d := score c.1 c.2 in
      let* ds := score_all rest in
      ret (d :: ds)
  end.

(** *** html_template and recommender *)

Definition link (url text : pyval) : pyval :=
  if truthy url
  then PStr ("<a href=" +:+ dquote +:+ py_str url +:+ dquote +:+ ">"
               +:+ py_str text +:+ "</a>")
  else text.

(** The dictionary is updated in place: the caller's [d] is the second
    component afterwards. *)
Definition html_template (d : gmap string pyval)
  : M (string * gmap string pyval) :=
  let* url := getitem d "url" in
  let* name := getitem d "name" in
  let d := <["url_html" := link url name]> d in
  let* url_html := getitem d "url_html" in
  let output := "What about visiting the " +:+ py_str url_html +:+ "?" in
  ret (output, d).

Inductive response : Type :=
  | Text (s : string)
  | HTML (s : string).

(** [output = html_template(d) if format=='html' else json.dumps(d)],
    with the dictionary as it is after the line. *)
Definition render (d : gmap string pyval) (format : string)
  : M (string * gmap string pyval) :=
  if String.eqb format "html" then html_template d
  else ret (json_dumps d, d).

Definition recommender (lon lat : Z) (format : string) (notebook : bool)
  : M response :=
  let* d := score lon lat in
  let* name := getitem d "name" in
  let* url := getitem d "url" in
  let* rendered := render d format in
  let output := rendered.1 in
  if notebook then ret (HTML output) else ret (Text output).

(** [recommender(float(lon), float(lat))] *)
Definition py_float (s : string) : M Z :=
  match float_of_str s with
  | Some x => ret x
  | None => raise ValueError
  end.

Definition recommender_api (lon lat : string) : M response :=
  let* x := py_float lon in
  let* y := py_float lat in
  recommender x y "json" false.

(** *** json.loads on the text of a flat object

    The scanner of json.decoder, restricted to what a flat dictionary
    needs: an object whose values are strings, numbers, [null], [true],
    [false], [NaN] and the infinities.  Anything else (nested values,
    characters from 256 on) is answered with [None]. *)

Definition is_ws (c : ascii) : bool :=
  let n := N_of_ascii c in
  ((n =? 32) || (n =? 9) || (n =? 10) || (n =? 13))%N.

Fixpoint skip_ws (s : string) : string :=
  match s with
  | String c rest => if is_ws c then skip_ws rest else s
  | EmptyString => s
  end.

Definition is_digit (c : ascii) : bool :=
  let n := N_of_ascii c in ((48 <=? n) && (n <=? 57))%N.

Definition hex_value (c : ascii) : option N :=
  let n := N_of_ascii c in
  if ((48 <=? n) && (n <=? 57))%N then Some (n - 48)%N
  else if ((97 <=? n) && (n <=? 102))%N then Some (n - 87)%N
  else if ((65 <=? n) && (n <=? 70))%N then Some (n - 55)%N
  else None.

Definition hex4 (a b c d : ascii) : option N :=
  x ← hex_value a; y ← hex_value b; z ← hex_value c; t ← hex_value d;
  Some (((x * 16 + y) * 16 + z) * 16 + t)%N.

(** [BACKSLASH] of json.decoder. *)
Definition unescape (e : ascii) : option ascii :=
  if Ascii.eqb e DQ then Some DQ
  else if Ascii.eqb e "\" then Some "\"%char
  else if Ascii.eqb e "/" then Some "/"%char
  else if Ascii.eqb e "b" then Some "008"%char
  else if Ascii.eqb e "f" then Some "012"%char
  else if Ascii.eqb e "n" then Some "010"%char
  else if Ascii.eqb e "r" then Some "013"%char
  else if Ascii.eqb e "t" then Some "009"%char
  else None.

(** [py_scanstring] (strict), from just after the opening quote. *)
Fixpoint scanstring (s : string) : option (string * string) :=
  match s with
  | EmptyString => None
  | String c rest =>
      if Ascii.eqb c DQ then Some (EmptyString, rest)
      else if Ascii.eqb c "\" then
        match rest with
        | EmptyString => None
        | String e rest1 =>
            if Ascii.eqb e "u" then
              match rest1 with
              | String h1 (String h2 (String h3 (String h4 rest2))) =>
                  match hex4 h1 h2 h3 h4 with
                  | Some n =>
                      if (n <? 256)%N
                      then prod_map (String (ascii_of_N n)) id <$> scanstring rest2
                      else None
                  | None => None
                  end
              | _ => None
              end
            else
              match unescape e with
              | Some ch => prod_map (String ch) id <$> scanstring rest1
              | None => None
              end
        end
      else if (N_of_ascii c <? 32)%N then None
      else prod_map (String c) id <$> scanstring rest
  end.

Definition is_number_char (c : ascii) : bool :=
  is_digit c || Ascii.eqb c "-" || Ascii.eqb c "+" || Ascii.eqb c "."
  || Ascii.eqb c "e" || Ascii.eqb c "E".

Fixpoint span_number (s : string) : string * string :=
  match s with
  | String c rest =>
      if is_number_char c then prod_map (String c) id (span_number rest)
      else (EmptyString, s)
  | EmptyString => (EmptyString, EmptyString)
  end.

Fixpoint drop_digits (s : string) : string :=
  match s with
  | String c rest => if is_digit c then drop_digits rest else s
  | EmptyString => s
  end.

Inductive number_kind : Type := IntLit | FloatLit.

#[local] Instance number_kind_eq_dec : EqDecision number_kind.
Proof. solve_decision. Defined.

(** [NUMBER_RE] matched against a whole token: an optional minus, then
    a zero or a digit string without leading zero; an optional fraction,
    a dot and digits; an optional exponent, [e] or [E], an optional sign
    and digits. *)
Definition number_exp (s : string) : option number_kind :=
  let s := match s with
           | String c rest =>
               if Ascii.eqb c "-" || Ascii.eqb c "+" then rest else s
           | EmptyString => s
           end in
  match s with
  | String d rest =>
      if is_digit d then
        match drop_digits rest with
        | EmptyString => Some FloatLit
        | _ => None
        end
      else None
  | EmptyString => None
  end.

Definition number_after_frac (s : string) : option number_kind :=
  match s with
  | EmptyString => Some FloatLit
  | String c rest =>
      if Ascii.eqb c "e" || Ascii.eqb c "E" then number_exp rest else None
  end.

Definition number_after_int (s : string) : option number_kind :=
  match s with
  | EmptyString => Some IntLit
  | String c rest =>
      if Ascii.eqb c "." then
        match rest with
        | String d rest' =>
            if is_digit d then number_after_frac (drop_digits rest') else None
        | EmptyString => None
        end
      else if Ascii.eqb c "e" || Ascii.eqb c "E" then number_exp rest
      else None
  end.

Definition number_shape (tok : string) : option number_kind :=
  let s := match tok with
           | String c rest => if Ascii.eqb c "-" then rest else tok
           | EmptyString => tok
           end in
  match s with
  | String d rest =>
      if Ascii.eqb d "0" then number_after_int rest
      else if is_digit d then number_after_int (drop_digits rest)
      else None
  | EmptyString => None
  end.

(** A number token: [int(...)] without fraction and exponent,
    [float(...)] with one of them. *)
Definition json_number (tok : string) : option pyval :=
  match number_shape tok with
  | Some IntLit => PInt <$> int_of_str tok
  | Some FloatLit => PFloat <$> float_of_str tok
  | None => None
  end.

(** [scan_once] on the first character of a value. *)
Definition scan_value (s : string) : option (pyval * string) :=
  match s with
  | EmptyString => None
  | String c rest =>
      if Ascii.eqb c DQ then prod_map PStr id <$> scanstring rest
      else if Ascii.eqb c "n" then pair PNone <$> strip_prefix "null" s
      else if Ascii.eqb c "t" then pair (PBool true) <$> strip_prefix "true" s
      else if Ascii.eqb c "f"
      then pair (PBool false) <$> strip_prefix "false" s
      else if Ascii.eqb c "N" then pair (PFloat float_nan) <$> strip_prefix "NaN" s
      else if Ascii.eqb c "I"
      then pair (PFloat float_inf) <$> strip_prefix "Infinity" s
      else match strip_prefix "-Infinity" s with
           | Some rest' => Some (PFloat float_neginf, rest')
           | None =>
               let '(tok, rest') := span_number s in
               (λ v, (v, rest')) <$> json_number tok
           end
  end.

(** [JSONObject] from the first key on; [fuel] bounds the number of
    members. *)
Fixpoint parse_members (fuel : nat) (s : string) (acc : gmap string pyval)
  : option (gmap string pyval * string) :=
  match fuel with
  | O => None
  | S fuel' =>
      match s with
      | String c rest =>
          if Ascii.eqb c DQ then
            match scanstring rest with
            | Some (key, s1) =>
                match skip_ws s1 with
                | String colon s2 =>
                    if Ascii.eqb colon ":" then
                      match scan_value (skip_ws s2) with
                      | Some (v, s3) =>
                          let acc := <[key := v]> acc in
                          match skip_ws s3 with
                          | String sep s4 =>
                              if Ascii.eqb sep "}" then Some (acc, s4)
                              else if Ascii.eqb sep ","
                              then parse_members fuel' (skip_ws s4) acc
                              else None
                          | EmptyString => None
                          end
                      | None => None
                      end
                    else None
                | EmptyString => None
                end
            | None => None
            end
          else None
      | EmptyString => None
      end
  end.

Definition json_loads (text : string) : option (gmap string pyval) :=
  match skip_ws text with
  | String c s1 =>
      if Ascii.eqb c "{" then
        let s2 := skip_ws s1 in
        match (match s2 with
               | String c2 s3 =>
                   if Ascii.eqb c2 "}" then Some (∅, s3)
                   else parse_members (String.length text) s2 ∅
               | EmptyString => None
               end) with
        | Some (d, rest) =>
            match skip_ws rest with
            | EmptyString => Some d
            | _ => None
            end
        | None => None
        end
      else None
  | EmptyString => None
  end.

(** A float whose text survives the trip through json: [floatstr]
    writes it as [NaN] or an infinity, or as a number token with a
    fraction or an exponent that [float] reads back as the same double. *)
Definition float_roundtrips (b : Z) : bool :=
  if float_is_nan b then bool_decide (b = float_nan)
  else if b =? float_inf then true
  else if b =? float_neginf then true
  else bool_decide (span_number (float_repr b) = (float_repr b, EmptyString))
       && bool_decide (number_shape (float_repr b) = Some FloatLit)
       && bool_decide (float_of_str (float_repr b) = Some b).

Definition value_roundtrips (v : pyval) : bool :=
  match v with
  | PFloat b => float_roundtrips b
  | PList _ | PDict _ => false
  | _ => true
  end.

(** The record is flat and every float of it survives the trip. *)
Definition record_roundtrips (d : gmap string pyval) : bool :=
  forallb (λ kv, value_roundtrips kv.2) (map_to_list d).

(** The text after a value does not go on like a number. *)
Definition ends_token (rest : string) : Prop :=
  match rest with
  | String c _ => is_number_char c = false
  | EmptyString => True
  end.

(** * Properties *)

#[local] Arguments String.append !_ _ / : simpl nomatch.

(** ** Rows and dictionaries *)

Lemma col_index_None cols c : c ∉ cols → col_index cols c = None.
Proof.
  induction cols as [|k ks IH]; intros Hc; [done|].
  apply not_elem_of_cons in Hc as [Hne Hks]. simpl.
  destruct (String.eqb_spec k c) as [->|_]; [done|].
  by rewrite IH.
Qed.

Lemma col_index_inj cols c1 c2 i :
  col_index cols c1 = Some i → col_index cols c2 = Some i → c1 = c2.
Proof.
  revert i. induction cols as [|k ks IH]; intros i; simpl; [done|].
  destruct (String.eqb_spec k c1) as [E1|_], (String.eqb_spec k c2) as [E2|_];
    [congruence| | |].
  - intros [= <-]. by destruct (col_index ks c2).
  - destruct (col_index ks c1); simpl; [|done]. by intros [= <-].
  - destruct (col_index ks c1) as [j1|]; simpl; [|done]. intros [= <-].
    destruct (col_index ks c2) as [j2|] eqn:E2; simpl; [|done]. intros [= ->].
    by apply (IH j1).
Qed.

Lemma fold_insert_zip_lookup keys (row : list pyval) (m : gmap string pyval) k :
  NoDup keys →
  fold_left (λ m kv, <[kv.1 := kv.2]> m) (zip keys row) m !! k
  = match row_col keys k row with Some v => Some v | None => m !! k end.
Proof.
  intros Hnd. revert row m.
  induction Hnd as [|k0 ks Hk0 Hnd IH]; intros row m.
  - simpl. unfold row_col. simpl. done.
  - destruct row as [|v r].
    + simpl. unfold row_col. by destruct (col_index (k0 :: ks) k).
    + simpl. rewrite IH. unfold row_col. simpl.
      destruct (String.eqb_spec k0 k) as [->|Hne].
      * rewrite (col_index_None ks k Hk0). simpl. by rewrite lookup_insert_eq.
      * destruct (col_index ks k) as [i|]; simpl.
        -- destruct (r !! i); [done|]. by rewrite lookup_insert_ne.
        -- by rewrite lookup_insert_ne.
Qed.

Lemma dict_zip_lookup keys row k :
  NoDup keys → dict_of_items (zip keys row) !! k = row_col keys k row.
Proof.
  intros Hnd. unfold dict_of_items. rewrite fold_insert_zip_lookup; [|done].
  rewrite lookup_empty. by destruct (row_col keys k row).
Qed.

Lemma partition_head w cid r rest :
  cluster_partition w cid = r :: rest → in_partition (columns w) cid r.
Proof.
  intros Hp.
  assert (r ∈ cluster_partition w cid) as Hin
    by (rewrite Hp; apply list_elem_of_here).
  by apply list_elem_of_filter in Hin as [? _].
Qed.

Lemma select_first w cid r rest :
  cluster_partition w cid = r :: rest → select_topvenues w cid 1 = [r].
Proof. unfold select_topvenues. by intros ->. Qed.

Lemma select_empty w cid :
  cluster_partition w cid = [] → select_topvenues w cid 1 = [].
Proof. unfold select_topvenues. by intros ->. Qed.

(** ** The stages of [score] *)

Lemma score_lookup_ok lon lat w predict cl r rest :
  ml w = Some predict → predict lon lat = Some cl →
  cluster_partition w cl = r :: rest →
  score_lookup lon lat w
  = (Ok (dict_of_items (zip (columns w) r)),
     with_trace (trace w ++ [EvSelect cl 1]) w).
Proof.
  intros Hml Hp Hpart.
  unfold score_lookup, bind, ml_predict, metadata_columns,
    session_execute_select, emit, first_row, ret.
  rewrite Hml, Hp. simpl.
  change (select_topvenues (with_trace _ w) cl 1) with (select_topvenues w cl 1).
  by rewrite (select_first _ _ _ _ Hpart).
Qed.

Lemma score_lookup_empty lon lat w predict cl :
  ml w = Some predict → predict lon lat = Some cl →
  cluster_partition w cl = [] →
  score_lookup lon lat w
  = (Raise IndexError, with_trace (trace w ++ [EvSelect cl 1]) w).
Proof.
  intros Hml Hp Hpart.
  unfold score_lookup, bind, ml_predict, metadata_columns,
    session_execute_select, emit, first_row, ret, raise.
  rewrite Hml, Hp. simpl.
  change (select_topvenues (with_trace _ w) cl 1) with (select_topvenues w cl 1).
  by rewrite (select_empty _ _ Hpart).
Qed.

Lemma score_enrich_present d u w :
  d !! "url" = Some u → u ≠ PNone → score_enrich d w = (Ok d, w).
Proof.
  intros Hu Hne. unfold score_enrich, bind, getitem. rewrite Hu. simpl.
  unfold ret at 1. by rewrite decide_False.
Qed.

(** Exceptions of the stages propagate unchanged. *)
Lemma score_raises lon lat w e w' :
  score_lookup lon lat w = (Raise e, w') → score lon lat w = (Raise e, w').
Proof. intros H. unfold score, bind. by rewrite H. Qed.

Lemma recommender_raises lon lat format notebook w e w' :
  score lon lat w = (Raise e, w') →
  recommender lon lat format notebook w = (Raise e, w').
Proof. intros H. unfold recommender, bind. by rewrite H. Qed.

Lemma recommender_api_parsed lon lat x y w :
  float_of_str lon = Some x → float_of_str lat = Some y →
  recommender_api lon lat w = recommender x y "json" false w.
Proof.
  intros Hx Hy. unfold recommender_api, bind, py_float. by rewrite Hx, Hy.
Qed.

Lemma geturl_str name w :
  geturl (PStr name) w
  = (Ok (looked_up w name),
     with_trace (trace w ++ [EvUrlopen (opensearch_url (quote name))]) w).
Proof.
  unfold geturl, finally_return, geturl_try, bind, emit, looked_up. simpl.
  destruct (opensearch w _) as [|[|u us]]; done.
Qed.

(** [score_enrich] only ever assigns the key [url]. *)
Lemma score_enrich_cases d w d' w' :
  score_enrich d w = (Ok d', w') →
  is_Some (d !! "url") ∧ (d' = d ∨ ∃ u, d' = <["url" := u]> d).
Proof.
  unfold score_enrich, bind, getitem. intros H.
  destruct (d !! "url") as [u|]; simpl in H; [|done].
  split; [eauto|].
  unfold ret at 1 in H. destruct (decide (u = PNone)) as [->|_].
  - destruct (d !! "name") as [n|]; simpl in H; [|done].
    unfold ret at 1 in H. destruct (geturl n w) as [[u'|e] w1]; [|done].
    rewrite lookup_insert_eq in H. unfold ret at 1 in H.
    destruct (<["url":=u']> d !! "cid") as [c|]; simpl in H; [|done].
    unfold ret at 1 in H.
    destruct (session_execute_text _ w1) as [[[]|e] w2]; [|done].
    injection H as <- _. eauto.
  - injection H as <- _. by left.
Qed.

Lemma score_enrich_frame d w d' w' k :
  score_enrich d w = (Ok d', w') → k ≠ "url" → d' !! k = d !! k.
Proof.
  intros [_ [-> | [u ->]]]%score_enrich_cases Hk; [done|].
  by rewrite lookup_insert_ne.
Qed.

Lemma score_enrich_has_url d w d' w' :
  score_enrich d w = (Ok d', w') → is_Some (d' !! "url").
Proof.
  intros [Hu [-> | [u ->]]]%score_enrich_cases; [done|].
  rewrite lookup_insert_eq. eauto.
Qed.

Lemma render_not_html d format w :
  format ≠ "html" → render d format w = (Ok (json_dumps d, d), w).
Proof.
  intros Hf. unfold render.
  destruct (String.eqb_spec format "html") as [->|_]; done.
Qed.

Lemma score_has_url lon lat w d w' :
  score lon lat w = (Ok d, w') → is_Some (d !! "url").
Proof.
  unfold score, bind. intros H.
  destruct (score_lookup lon lat w) as [[d0|e] w0]; [|done].
  by eapply score_enrich_has_url.
Qed.

Lemma recommender_ok lon lat format notebook w d w' :
  score lon lat w = (Ok d, w') → is_Some (d !! "name") →
  recommender lon lat format notebook w
  = match render d format w' with
    | (Ok rendered, w'') =>
        (Ok (if notebook then HTML rendered.1 else Text rendered.1), w'')
    | (Raise e, w'') => (Raise e, w'')
    end.
Proof.
  intros Hs [n Hn]. destruct (score_has_url _ _ _ _ _ Hs) as [u Hu].
  unfold recommender, bind, getitem. rewrite Hs, Hn. simpl.
  unfold ret at 1. rewrite Hu. simpl. unfold ret at 1.
  destruct (render d format w') as [[r|e] w'']; [|done].
  by destruct notebook.
Qed.

Lemma recommender_json lon lat notebook w d w' :
  score lon lat w = (Ok d, w') → is_Some (d !! "name") →
  recommender lon lat "json" notebook w
  = (Ok (if notebook then HTML (json_dumps d) else Text (json_dumps d)), w').
Proof.
  intros Hs Hn. by rewrite (recommender_ok _ _ _ _ _ _ _ Hs Hn).
Qed.

(** ** Text *)

Lemma append_assoc (a b c : string) : (a +:+ b) +:+ c = a +:+ b +:+ c.
Proof. induction a as [|x a IH]; simpl; [done|]. by rewrite IH. Qed.

Lemma strip_prefix_app p s : strip_prefix p (p +:+ s) = Some s.
Proof.
  induction p as [|a p IH]; simpl; [done|]. by rewrite Ascii.eqb_refl.
Qed.

Lemma int_of_str_repr z : int_of_str (int_repr z) = Some z.
Proof.
  unfold int_of_str, int_repr. rewrite NilZero.isi.
  - simpl. by rewrite DecimalZ.of_to.
  - destruct z; simpl; try done.
    intros [= E]. by apply DecimalPos.Unsigned.to_uint_nonnil in E.
  - destruct z; simpl; try done.
    intros [= E]. by apply DecimalPos.Unsigned.to_uint_nonnil in E.
Qed.

Lemma cql_string_body_literal lit tail :
  quote_free lit = true →
  cql_string_body (lit +:+ "'" +:+ update_where +:+ tail)
  = Some (lit, update_where +:+ tail).
Proof.
  unfold update_where.
  induction lit as [|c lit IH]; simpl in *; [done|].
  intros [Hc Hq]%andb_true_iff. apply negb_true_iff in Hc.
  rewrite Hc, (IH Hq). done.
Qed.

Lemma parse_update_statement lit cid :
  quote_free lit = true →
  parse_update (update_prefix +:+ lit +:+ "'" +:+ update_where +:+ int_repr cid)
  = Some (lit, cid).
Proof.
  intros Hq. unfold parse_update.
  rewrite strip_prefix_app. cbn [mbind option_bind].
  rewrite (cql_string_body_literal lit (int_repr cid) Hq). cbn [mbind option_bind].
  rewrite (strip_prefix_app update_where). cbn [mbind option_bind].
  by rewrite int_of_str_repr.
Qed.

(** ** The UPDATE and what later queries see *)

Lemma row_col_row_set_eq cols c v r old :
  row_col cols c r = Some old → row_col cols c (row_set cols c v r) = Some v.
Proof.
  unfold row_col, row_set. destruct (col_index cols c) as [i|]; simpl; [|done].
  intros H. apply list_lookup_insert_eq. by eapply lookup_lt_Some.
Qed.

Lemma row_col_row_set_ne cols c c' v r :
  c ≠ c' → row_col cols c' (row_set cols c v r) = row_col cols c' r.
Proof.
  intros Hne. unfold row_col, row_set.
  destruct (col_index cols c) as [i|] eqn:Hi; [|done].
  destruct (col_index cols c') as [j|] eqn:Hj; simpl; [|done].
  apply list_lookup_insert_ne. intros ->. apply Hne.
  by eapply col_index_inj.
Qed.

Lemma filter_update_url cols cid v (rs : list (list pyval)) :
  filter (in_partition cols cid)
    ((λ r, if decide (in_partition cols cid r)
           then row_set cols "url" v r else r) <$> rs)
  = row_set cols "url" v <$> filter (in_partition cols cid) rs.
Proof.
  induction rs as [|r rs IH]; [done|]. rewrite fmap_cons.
  destruct (decide (in_partition cols cid r)) as [Hr|Hr].
  - rewrite !filter_cons_True, fmap_cons, IH; [done..|].
    unfold in_partition in *. by rewrite row_col_row_set_ne.
  - by rewrite !filter_cons_False, IH.
Qed.

Lemma update_url_partition cols cid v (rs : list (list pyval)) r rest :
  filter (in_partition cols cid) rs = r :: rest →
  filter (in_partition cols cid) (update_url cols cid v rs)
  = row_set cols "url" v <$> (r :: rest).
Proof.
  intros Hf. unfold update_url. rewrite decide_True.
  - by rewrite filter_update_url, Hf.
  - apply Exists_exists. exists r.
    assert (r ∈ filter (in_partition cols cid) rs) as Hin
      by (rewrite Hf; apply list_elem_of_here).
    apply list_elem_of_filter in Hin as [? ?]. done.
Qed.

Lemma session_execute_update lit cid w :
  quote_free lit = true →
  is_Some (col_index (columns w) "url") →
  is_Some (col_index (columns w) "cid") →
  let stmt := update_prefix +:+ lit +:+ "'" +:+ update_where +:+ int_repr cid in
  session_execute_text stmt w
  = (Ok tt, World (ml w) (columns w)
              (update_url (columns w) cid (PStr lit) (rows w))
              (opensearch w) (trace w ++ [EvUpdate stmt])).
Proof.
  intros Hq [i Hi] [j Hj] stmt. unfold session_execute_text, bind, emit.
  unfold stmt. rewrite (parse_update_statement lit cid Hq).
  cbn [columns with_trace]. rewrite Hi, Hj. done.
Qed.

Lemma score_enrich_absent d name cid w :
  d !! "url" = Some PNone → d !! "name" = Some (PStr name) →
  d !! "cid" = Some (PInt cid) →
  quote_free (py_str (looked_up w name)) = true →
  is_Some (col_index (columns w) "url") →
  is_Some (col_index (columns w) "cid") →
  score_enrich d w
  = (Ok (<["url" := looked_up w name]> d),
     World (ml w) (columns w)
       (update_url (columns w) cid (PStr (py_str (looked_up w name))) (rows w))
       (opensearch w)
       (trace w ++ [EvUrlopen (opensearch_url (quote name));
                    EvUpdate (update_prefix +:+ py_str (looked_up w name)
                                +:+ "'" +:+ update_where +:+ int_repr cid)])).
Proof.
  intros Hu Hn Hc Hq Hurl Hcid. unfold score_enrich, bind, getitem.
  rewrite Hu. cbn [ret]. rewrite decide_True by done.
  rewrite Hn. cbn [ret]. rewrite geturl_str.
  rewrite lookup_insert_eq. cbn [ret].
  rewrite lookup_insert_ne by done. rewrite Hc. cbn [ret].
  change (py_str (PInt cid)) with (int_repr cid).
  rewrite session_execute_update; [|done..].
  cbn [ml columns rows opensearch trace with_trace]. unfold ret.
  by rewrite <- app_assoc.
Qed.

Lemma score_lookup_shape lon lat w d w' :
  score_lookup lon lat w = (Ok d, w') →
  ∃ cl r rest predict,
    ml w = Some predict ∧ predict lon lat = Some cl
    ∧ cluster_partition w cl = r :: rest
    ∧ d = dict_of_items (zip (columns w) r)
    ∧ w' = with_trace (trace w ++ [EvSelect cl 1]) w.
Proof.
  intros H.
  destruct (ml w) as [predict|] eqn:Hml;
    [|unfold score_lookup, bind, ml_predict in H; by rewrite Hml in H].
  destruct (predict lon lat) as [cl|] eqn:Hp;
    [|unfold score_lookup, bind, ml_predict in H; by rewrite Hml, Hp in H].
  destruct (cluster_partition w cl) as [|r rest] eqn:Hpart.
  - by rewrite (score_lookup_empty lon lat w predict cl) in H.
  - exists cl, r, rest, predict.
    rewrite (score_lookup_ok lon lat w predict cl r rest) in H by done.
    by injection H as <- <-.
Qed.

(** A request whose stored link is set is answered from the table. *)
Lemma score_link_present lon lat w predict cl r rest u :
  NoDup (columns w) →
  ml w = Some predict → predict lon lat = Some cl →
  cluster_partition w cl = r :: rest →
  row_col (columns w) "url" r = Some u → u ≠ PNone →
  score lon lat w
  = (Ok (dict_of_items (zip (columns w) r)),
     with_trace (trace w ++ [EvSelect cl 1]) w).
Proof.
  intros Hnd Hml Hp Hpart Hu Hne. unfold score, bind.
  rewrite (score_lookup_ok lon lat w predict cl r rest Hml Hp Hpart).
  apply (score_enrich_present _ u); [|done]. by rewrite dict_zip_lookup.
Qed.

Lemma score_all_link_present coords w predict cl r rest u :
  NoDup (columns w) → ml w = Some predict →
  Forall (λ c, predict c.1 c.2 = Some cl) coords →
  cluster_partition w cl = r :: rest →
  row_col (columns w) "url" r = Some u → u ≠ PNone →
  score_all coords w
  = (Ok (replicate (length coords) (dict_of_items (zip (columns w) r))),
     with_trace (trace w ++ replicate (length coords) (EvSelect cl 1)) w).
Proof.
  intros Hnd Hml Hall Hpart Hu Hne. revert w Hnd Hml Hpart Hu.
  induction Hall as [|c coords Hc Hall IH]; intros w Hnd Hml Hpart Hu.
  - cbn. unfold ret, with_trace. rewrite app_nil_r. by destruct w.
  - cbn [score_all]. unfold bind at 1.
    rewrite (score_link_present c.1 c.2 w predict cl r rest u) by done.
    unfold bind at 1. rewrite IH by done. cbn. unfold ret, with_trace. cbn.
    by rewrite <- app_assoc.
Qed.

Lemma score_no_url_html lon lat w d w' :
  NoDup (columns w) → "url_html" ∉ columns w →
  score lon lat w = (Ok d, w') → d !! "url_html" = None.
Proof.
  intros Hnd Hcol H. unfold score, bind in H.
  destruct (score_lookup lon lat w) as [[d0|e] w0] eqn:Hl; [|done].
  rewrite (score_enrich_frame _ _ _ _ "url_html" H) by done.
  apply score_lookup_shape in Hl as (cl & r & rs & predict & _ & _ & _ & -> & _).
  rewrite dict_zip_lookup by done. unfold row_col.
  by rewrite col_index_None.
Qed.

Lemma html_template_ok d url name w :
  d !! "url" = Some url → d !! "name" = Some name →
  html_template d w
  = (Ok ("What about visiting the " +:+ py_str (link url name) +:+ "?",
         <["url_html" := link url name]> d), w).
Proof.
  intros Hu Hn. unfold html_template, bind, getitem.
  rewrite Hu. cbn [ret]. rewrite Hn. cbn [ret].
  by rewrite lookup_insert_eq.
Qed.

Lemma looked_up_fails w name :
  lookup_fails (opensearch w (opensearch_url (quote name))) →
  looked_up w name = PStr "".
Proof. unfold looked_up. by intros [-> | ->]. Qed.

Lemma score_failed_lookup lon lat w predict cl r rest name :
  NoDup (columns w) →
  ml w = Some predict → predict lon lat = Some cl →
  cluster_partition w cl = r :: rest →
  row_col (columns w) "url" r = Some PNone →
  row_col (columns w) "name" r = Some (PStr name) →
  lookup_fails (opensearch w (opensearch_url (quote name))) →
  score lon lat w
  = (Ok (<["url" := PStr ""]> (dict_of_items (zip (columns w) r))),
     World (ml w) (columns w)
       (update_url (columns w) cl (PStr "") (rows w))
       (opensearch w)
       (trace w ++ [EvSelect cl 1;
                    EvUrlopen (opensearch_url (quote name));
                    EvUpdate (update_prefix +:+ "'" +:+ update_where
                                +:+ int_repr cl)])).
Proof.
  intros Hnd Hml Hp Hsel Hurl Hname Hfail.
  pose proof (partition_head _ _ _ _ Hsel) as Hcid.
  unfold score, bind.
  rewrite (score_lookup_ok lon lat w predict cl r rest Hml Hp Hsel).
  set (w0 := with_trace _ w).
  assert (looked_up w0 name = PStr "") as Hl by by apply looked_up_fails.
  rewrite (score_enrich_absent _ name cl w0).
  - rewrite Hl. cbn. by rewrite <- app_assoc.
  - by rewrite dict_zip_lookup.
  - by rewrite dict_zip_lookup.
  - by rewrite dict_zip_lookup.
  - by rewrite Hl.
  - unfold row_col in Hurl. cbn. by destruct (col_index (columns w) "url").
  - unfold in_partition, row_col in Hcid. cbn.
    by destruct (col_index (columns w) "cid").
Qed.

Lemma render_total d format w :
  is_Some (d !! "url") → is_Some (d !! "name") →
  ∃ rendered, render d format w = (Ok rendered, w).
Proof.
  intros [u Hu] [n Hn]. unfold render. destruct (String.eqb format "html").
  - rewrite (html_template_ok d u n w Hu Hn). eauto.
  - eauto.
Qed.

(** ** Reading back what json.dumps wrote *)

Lemma scanstring_escape_char c t :
  scanstring (json_escape_char c +:+ t)
  = prod_map (String c) id <$> scanstring t.
Proof.
  destruct c as [[] [] [] [] [] [] [] []]; reflexivity.
Qed.

Lemma scanstring_escape s rest :
  scanstring (json_escape s +:+ dquote +:+ rest) = Some (s, rest).
Proof.
  induction s as [|c s IH]; [done|].
  cbn [json_escape]. rewrite append_assoc, scanstring_escape_char, IH. done.
Qed.

Lemma pos_to_uint_head p :
  match Pos.to_uint p with
  | Nil | D0 _ => False
  | _ => True
  end.
Proof.
  pose proof (DecimalPos.Unsigned.to_of (Pos.to_uint p)) as H.
  rewrite DecimalPos.Unsigned.of_to in H. cbn [N.to_uint] in H.
  pose proof (DecimalPos.Unsigned.to_uint_nonzero p) as Hz.
  pose proof (DecimalFacts.nzhead_nonzero (Pos.to_uint p)) as Hh.
  unfold unorm in H. destruct (nzhead (Pos.to_uint p)) eqn:E;
    try (rewrite H; exact I).
  - by rewrite H in Hz.
  - by destruct (Hh u).
Qed.

Lemma drop_digits_uint d : drop_digits (NilEmpty.string_of_uint d) = "".
Proof. induction d; done. Qed.

Lemma span_number_uint d :
  span_number (NilEmpty.string_of_uint d) = (NilEmpty.string_of_uint d, "").
Proof.
  induction d; [done|cbn [NilEmpty.string_of_uint span_number]; by rewrite IHd..].
Qed.

Lemma span_number_app t rest :
  span_number t = (t, "") → ends_token rest →
  span_number (t +:+ rest) = (t, rest).
Proof.
  intros Ht Hrest. induction t as [|a t IH]; cbn [span_number String.append] in *.
  - destruct rest as [|c rest]; [done|]. unfold ends_token in Hrest.
    cbn [span_number]. by rewrite Hrest.
  - destruct (is_number_char a); [|done].
    destruct (span_number t) as [t1 t2] eqn:E. cbn in Ht.
    injection Ht as -> ->. by rewrite IH.
Qed.

Lemma int_repr_cases z :
  ∃ d, match d with Nil | D0 _ => d = zero | _ => True end
       ∧ (int_repr z = NilEmpty.string_of_uint d
          ∨ int_repr z = String "-" (NilEmpty.string_of_uint d) ∧ d ≠ zero).
Proof.
  destruct z as [|p|p]; unfold int_repr; cbn [Z.to_int NilZero.string_of_int].
  - exists zero. split; [done|]. by left.
  - exists (Pos.to_uint p). pose proof (pos_to_uint_head p) as H.
    destruct (Pos.to_uint p); try done; split; try done; by left.
  - exists (Pos.to_uint p). pose proof (pos_to_uint_head p) as H.
    destruct (Pos.to_uint p); try done; split; try done; by right.
Qed.

Lemma span_number_int_repr z : span_number (int_repr z) = (int_repr z, "").
Proof.
  destruct (int_repr_cases z) as (d & _ & [-> | [-> _]]).
  - apply span_number_uint.
  - cbn [span_number]. by rewrite span_number_uint.
Qed.

Lemma number_shape_int_repr z : number_shape (int_repr z) = Some IntLit.
Proof.
  destruct (int_repr_cases z) as (d & Hd & [-> | [-> Hnz]]).
  - destruct d; try done; try (by injection Hd as ->);
      cbn; by rewrite drop_digits_uint.
  - destruct d; try done; try (by injection Hd as ->);
      cbn; by rewrite drop_digits_uint.
Qed.

Lemma json_number_int_repr z : json_number (int_repr z) = Some (PInt z).
Proof.
  unfold json_number. by rewrite number_shape_int_repr, int_of_str_repr.
Qed.

Lemma number_token_head t :
  span_number t = (t, "") → is_Some (number_shape t) →
  ∃ a t', t = String a t' ∧ is_number_char a = true
          ∧ ∀ rest, strip_prefix "-Infinity" (t +:+ rest) = None.
Proof.
  intros Hspan [k Hk]. destruct t as [|a t']; [done|].
  exists a, t'. split; [done|].
  assert (is_number_char a = true) as Ha.
  { cbn [span_number] in Hspan. by destruct (is_number_char a). }
  split; [done|].
  { intros rest. cbn [String.append strip_prefix].
    destruct (Ascii.eqb_spec "-" a) as [<-|]; [|done].
    destruct t' as [|b t'']; [done|].
    cbn [span_number] in Hspan. change (is_number_char "-") with true in Hspan.
    cbn [span_number] in Hspan.
    assert (is_number_char b = true) as Hb by by destruct (is_number_char b).
    cbn [String.append strip_prefix].
    destruct (Ascii.eqb_spec "I" b) as [<-|]; [done|done]. }
Qed.

Lemma scan_value_number t rest :
  span_number t = (t, "") → is_Some (number_shape t) → ends_token rest →
  scan_value (t +:+ rest) = (λ v, (v, rest)) <$> json_number t
  ∧ skip_ws (t +:+ rest) = t +:+ rest.
Proof.
  intros Hspan Hshape Hrest.
  destruct (number_token_head t Hspan Hshape) as (a & t' & -> & Ha & Hinf).
  pose proof (span_number_app _ _ Hspan Hrest) as Happ.
  specialize (Hinf rest).
  destruct a as [[] [] [] [] [] [] [] []]; try discriminate Ha;
    (split; [|reflexivity]);
    unfold scan_value; cbn [String.append Ascii.eqb Bool.eqb] in *;
    cbv beta iota; rewrite ?Hinf, Happ; reflexivity.
Qed.

Lemma scan_value_json v rest :
  value_roundtrips v = true → ends_token rest →
  scan_value (json_value v +:+ rest) = Some (v, rest)
  ∧ skip_ws (json_value v +:+ rest) = json_value v +:+ rest.
Proof.
  intros Hv Hrest. destruct v as [|z|b|s|[]|l|l]; cbn [json_value];
    [| | | |split; reflexivity..|done|done].
  - split; reflexivity.
  - destruct (scan_value_number (int_repr z) rest) as [-> ->];
      [apply span_number_int_repr|by rewrite number_shape_int_repr|done|].
    by rewrite json_number_int_repr.
  - cbn [value_roundtrips] in Hv. unfold float_roundtrips in Hv.
    unfold json_floatstr. destruct (float_is_nan b).
    { apply bool_decide_eq_true in Hv as ->. split; reflexivity. }
    destruct (Z.eqb_spec b float_inf) as [->|_]; [split; reflexivity|].
    destruct (Z.eqb_spec b float_neginf) as [->|_]; [split; reflexivity|].
    apply andb_true_iff in Hv as [[H1 H2]%andb_true_iff H3].
    apply bool_decide_eq_true in H1, H2, H3.
    destruct (scan_value_number (float_repr b) rest) as [-> ->];
      [done|by rewrite H2|done|].
    unfold json_number. by rewrite H2, H3.
  - unfold json_string. rewrite !append_assoc. split; [|reflexivity].
    unfold scan_value. cbn [dquote String.append].
    rewrite Ascii.eqb_refl.
    change (String DQ rest) with (dquote +:+ rest).
    by rewrite scanstring_escape.
Qed.

Lemma parse_members_step fuel k v X acc :
  value_roundtrips v = true → ends_token X →
  parse_members (S fuel) (json_item (k, v) +:+ X) acc
  = match skip_ws X with
    | String sep s4 =>
        if Ascii.eqb sep "}" then Some (<[k := v]> acc, s4)
        else if Ascii.eqb sep ","
        then parse_members fuel (skip_ws s4) (<[k := v]> acc)
        else None
    | EmptyString => None
    end.
Proof.
  intros Hv HX. unfold json_item, json_string. cbn [fst snd].
  rewrite !append_assoc. cbn [dquote String.append parse_members].
  rewrite Ascii.eqb_refl.
  change (String ":" (String " " (json_value v +:+ X)))
    with (": " +:+ json_value v +:+ X).
  change (String DQ (": " +:+ json_value v +:+ X))
    with (dquote +:+ ": " +:+ json_value v +:+ X).
  rewrite scanstring_escape.
  destruct (scan_value_json v X Hv HX) as [Hscan Hws].
  change (skip_ws (": " +:+ json_value v +:+ X))
    with (String ":" (" " +:+ json_value v +:+ X)).
  cbv beta iota. rewrite Ascii.eqb_refl.
  change (skip_ws (" " +:+ json_value v +:+ X))
    with (skip_ws (json_value v +:+ X)).
  rewrite Hws, Hscan. done.
Qed.

Lemma json_items_head l Y :
  l ≠ [] → ∃ t, json_items l +:+ Y = String DQ t.
Proof.
  destruct l as [|[k v] l']; [done|]. intros _.
  cbn [json_items]. unfold json_item, json_string. cbn [fst snd].
  destruct l'; rewrite !append_assoc; cbn [dquote String.append]; eauto.
Qed.

Lemma parse_members_items l fuel acc tail :
  l ≠ [] → (length l ≤ fuel)%nat →
  forallb (λ kv, value_roundtrips kv.2) l = true →
  parse_members fuel (json_items l +:+ "}" +:+ tail) acc
  = Some (fold_left (λ m kv, <[kv.1 := kv.2]> m) l acc, tail).
Proof.
  revert fuel acc. induction l as [|[k v] l' IH]; intros fuel acc Hne Hlen Hall;
    [done|].
  destruct fuel as [|fuel]; [cbn in Hlen; lia|].
  cbn [forallb snd] in Hall. apply andb_true_iff in Hall as [Hv Hall].
  cbn [fold_left fst snd]. destruct l' as [|kv' l''].
  - cbn [json_items fold_left]. by rewrite parse_members_step.
  - change (json_items ((k, v) :: kv' :: l''))
      with (json_item (k, v) +:+ ", " +:+ json_items (kv' :: l'')).
    rewrite !append_assoc. rewrite parse_members_step; [|done..].
    destruct (json_items_head (kv' :: l'') ("}" +:+ tail)) as [t Ht]; [done|].
    set (text := json_items (kv' :: l'') +:+ "}" +:+ tail) in *.
    change (skip_ws (", " +:+ text)) with (String "," (String " " text)).
    cbv beta iota. cbn [Ascii.eqb Bool.eqb]. cbv beta iota.
    change (skip_ws (String " " text)) with (skip_ws text).
    assert (skip_ws text = text) as -> by (rewrite Ht; reflexivity).
    subst text.
    apply IH; [done|cbn in *; lia|done].
Qed.

Lemma string_length_app (a b : string) :
  String.length (a +:+ b) = (String.length a + String.length b)%nat.
Proof. induction a as [|x a IH]; cbn; [done|]. by rewrite IH. Qed.

Lemma json_items_length l : (length l ≤ String.length (json_items l))%nat.
Proof.
  induction l as [|[k v] l' IH]; [done|].
  destruct l' as [|kv' l''].
  - cbn [json_items]. unfold json_item, json_string.
    rewrite !string_length_app. cbn. lia.
  - change (json_items ((k, v) :: kv' :: l''))
      with (json_item (k, v) +:+ ", " +:+ json_items (kv' :: l'')).
    unfold json_item, json_string. rewrite !string_length_app.
    cbn [length] in *. cbn [String.length dquote]. lia.
Qed.

Lemma fold_insert_rev (l : list (string * pyval)) (m : gmap string pyval) :
  fold_left (λ m kv, <[kv.1 := kv.2]> m) l m
  = foldr (λ kv, <[kv.1 := kv.2]>) m (rev l).
Proof.
  revert m. induction l as [|kv l IH]; intros m; [done|].
  cbn [fold_left rev]. rewrite IH, foldr_app. done.
Qed.

Lemma dict_of_items_to_list (d : gmap string pyval) :
  dict_of_items (map_to_list d) = d.
Proof.
  unfold dict_of_items. rewrite fold_insert_rev.
  rewrite <- (list_to_map_to_list d) at 2.
  apply (list_to_map_proper (M := gmap string)).
  - rewrite <- Permutation_rev. apply NoDup_fst_map_to_list.
  - symmetry. apply Permutation_rev.
Qed.

(** ** Every way a stage can end *)

Lemma session_execute_text_cases stmt w :
  session_execute_text stmt w
  = (Raise (CqlError stmt), with_trace (trace w ++ [EvUpdate stmt]) w)
  ∨ ∃ lit cid,
      parse_update stmt = Some (lit, cid)
      ∧ session_execute_text stmt w
        = (Ok tt, World (ml w) (columns w)
                    (update_url (columns w) cid (PStr lit) (rows w))
                    (opensearch w) (trace w ++ [EvUpdate stmt])).
Proof.
  unfold session_execute_text, bind, emit, raise.
  destruct (parse_update stmt) as [[lit cid]|]; [|by left].
  cbn [columns with_trace].
  destruct (col_index (columns w) "url"); [|by left].
  destruct (col_index (columns w) "cid"); [|by left].
  right. by exists lit, cid.
Qed.

Lemma score_lookup_outcomes lon lat w :
  (ml w = None ∧ score_lookup lon lat w = (Raise NameError, w))
  ∨ (∃ predict, ml w = Some predict ∧ predict lon lat = None
       ∧ score_lookup lon lat w = (Raise ValueError, w))
  ∨ (∃ predict cl, ml w = Some predict ∧ predict lon lat = Some cl
       ∧ cluster_partition w cl = []
       ∧ score_lookup lon lat w
         = (Raise IndexError, with_trace (trace w ++ [EvSelect cl 1]) w))
  ∨ (∃ predict cl r rest, ml w = Some predict ∧ predict lon lat = Some cl
       ∧ cluster_partition w cl = r :: rest
       ∧ score_lookup lon lat w
         = (Ok (dict_of_items (zip (columns w) r)),
            with_trace (trace w ++ [EvSelect cl 1]) w)).
Proof.
  destruct (ml w) as [predict|] eqn:Hml.
  2: { left. split; [done|]. unfold score_lookup, bind, ml_predict.
       by rewrite Hml. }
  destruct (predict lon lat) as [cl|] eqn:Hp.
  2: { right; left. exists predict. split; [done|]. split; [done|].
       unfold score_lookup, bind, ml_predict. by rewrite Hml, Hp. }
  destruct (cluster_partition w cl) as [|r rest] eqn:Hpart.
  - right; right; left. exists predict, cl.
    by rewrite (score_lookup_empty lon lat w predict cl).
  - right; right; right. exists predict, cl, r, rest.
    by rewrite (score_lookup_ok lon lat w predict cl r rest).
Qed.

(** Every way the enrichment can end. *)
Lemma score_enrich_outcomes d w :
  (d !! "url" = None ∧ score_enrich d w = (Raise (KeyError "url"), w))
  ∨ (∃ u, d !! "url" = Some u ∧ u ≠ PNone ∧ score_enrich d w = (Ok d, w))
  ∨ (d !! "url" = Some PNone ∧ d !! "name" = None
       ∧ score_enrich d w = (Raise (KeyError "name"), w))
  ∨ (∃ n, d !! "url" = Some PNone ∧ d !! "name" = Some n
       ∧ (∀ name, n ≠ PStr name)
       ∧ score_enrich d w = (Raise TypeError, w))
  ∨ (∃ name, d !! "url" = Some PNone ∧ d !! "name" = Some (PStr name)
       ∧ d !! "cid" = None
       ∧ score_enrich d w
         = (Raise (KeyError "cid"),
            with_trace (trace w ++ [EvUrlopen (opensearch_url (quote name))]) w))
  ∨ (∃ name c, d !! "url" = Some PNone ∧ d !! "name" = Some (PStr name)
       ∧ d !! "cid" = Some c
       ∧ let stmt := update_prefix +:+ py_str (looked_up w name) +:+ "'"
                       +:+ update_where +:+ py_str c in
         let url := EvUrlopen (opensearch_url (quote name)) in
         score_enrich d w
         = (Raise (CqlError stmt),
            with_trace (trace w ++ [url; EvUpdate stmt]) w)
         ∨ ∃ lit cid,
             parse_update stmt = Some (lit, cid)
             ∧ score_enrich d w
               = (Ok (<["url" := looked_up w name]> d),
                  World (ml w) (columns w)
                    (update_url (columns w) cid (PStr lit) (rows w))
                    (opensearch w) (trace w ++ [url; EvUpdate stmt]))).
Proof.
  unfold score_enrich, bind, getitem.
  destruct (d !! "url") as [u|] eqn:Hu; [|by left].
  cbn [ret]. destruct (decide (u = PNone)) as [->|Hne].
  2: { right; left. by exists u. }
  destruct (d !! "name") as [n|] eqn:Hn; [|by right; right; left].
  cbn [ret]. destruct n as [|z|b|name|b|l|l];
    try (right; right; right; left; eexists; by repeat split).
  rewrite geturl_str.
  rewrite lookup_insert_eq. cbn [ret]. rewrite lookup_insert_ne by done.
  destruct (d !! "cid") as [c|] eqn:Hc.
  2: { right; right; right; right; left. by exists name. }
  right; right; right; right; right. exists name, c.
  split; [done|]. split; [done|]. split; [done|]. cbn [ret].
  match goal with
  | |- context [session_execute_text ?s ?w0] =>
      destruct (session_execute_text_cases s w0) as [-> | (lit & cid & Hp & ->)]
  end.
  - left. cbn. by rewrite <- app_assoc.
  - right. exists lit, cid. split; [done|]. cbn. unfold ret.
    by rewrite <- app_assoc.
Qed.

Lemma score_unfold lon lat w :
  score lon lat w
  = match score_lookup lon lat w with
    | (Ok d, w0) => score_enrich d w0
    | (Raise e, w0) => (Raise e, w0)
    end.
Proof. reflexivity. Qed.

(** ** The claims *)

(** C1, as amended.  [recommender] has no rejected format: every
    [format] other than ["html"], known or not, takes the [json.dumps]
    branch, so the call behaves exactly as with ["json"], and the
    rendering line itself returns the JSON text of the record. *)
Theorem recommender_unknown_format_is_json lon lat format notebook w :
  format ≠ "html" →
  recommender lon lat format notebook w = recommender lon lat "json" notebook w
  ∧ ∀ d w0, render d format w0 = (Ok (json_dumps d, d), w0).
Proof.
  intros Hf. split; [|intros d w0; by apply render_not_html].
  unfold recommender, bind.
  destruct (score lon lat w) as [[d|e] w1]; [|done].
  destruct (getitem d "name" w1) as [[n|e] w2]; [|done].
  destruct (getitem d "url" w2) as [[u|e] w3]; [|done].
  rewrite !render_not_html; done.
Qed.

(** C2.  The enrichment step of [score] does nothing to a record whose
    link is already set (any value but [None]): it returns the same
    dictionary and leaves the world as it was, so its trace gains no
    [EvUrlopen] and no [EvUpdate] and the table is untouched; running
    it twice in a row is the same as not running it. *)
Theorem score_enrich_idempotent d u w :
  d !! "url" = Some u → u ≠ PNone →
  score_enrich d w = (Ok d, w)
  ∧ (let* d1 := score_enrich d in score_enrich d1) w = (Ok d, w).
Proof.
  intros Hu Hne. split; [by eapply score_enrich_present|].
  unfold bind. rewrite (score_enrich_present d u w Hu Hne).
  by eapply score_enrich_present.
Qed.

(** C3, as amended.  For a record whose name is the string [X],
    [html_template] returns exactly the plain sentence when the link is
    [None] or the empty string, and exactly the sentence with [X]
    wrapped in an anchor to the link when the link is a non-empty
    string. *)
Theorem html_template_sentence d X url w :
  d !! "name" = Some (PStr X) → d !! "url" = Some url →
  (url = PNone ∨ url = PStr "" →
     ∃ d', html_template d w
           = (Ok ("What about visiting the " +:+ X +:+ "?", d'), w))
  ∧ (∀ u, url = PStr u → u ≠ "" →
     ∃ d', html_template d w
           = (Ok ("What about visiting the <a href=" +:+ dquote +:+ u
                    +:+ dquote +:+ ">" +:+ X +:+ "</a>?", d'), w)).
Proof.
  intros Hn Hu. rewrite (html_template_ok d url (PStr X) w Hu Hn). split.
  - intros [-> | ->]; eexists; reflexivity.
  - intros u -> Hne. eexists. unfold link. simpl.
    destruct (String.eqb_spec u "") as [->|_]; [done|]. simpl.
    rewrite !append_assoc. simpl. rewrite !append_assoc. reflexivity.
Qed.

(** C4.  For a record all of whose floats survive the trip through
    their text, reading back the structured rendering gives the record
    itself: the same keys with the same values, nothing added, dropped
    or renamed; and the structured branch of the rendering line returns
    that text and leaves the record as it was. *)
Theorem json_roundtrip (d : gmap string pyval) :
  record_roundtrips d = true →
  json_loads (json_dumps d) = Some d
  ∧ ∀ w, render d "json" w = (Ok (json_dumps d, d), w).
Proof.
  intros Hd. split; [|done].
  unfold record_roundtrips in Hd. unfold json_loads, json_dumps.
  change (skip_ws ("{" +:+ ?x)) with (String "{" x).
  cbv beta iota. cbn [Ascii.eqb Bool.eqb]. cbv beta iota.
  destruct (map_to_list d) as [|kv l] eqn:Hl.
  - apply map_to_list_empty_iff in Hl as ->. reflexivity.
  - destruct (json_items_head (kv :: l) "}") as [t Ht]; [done|].
    assert (skip_ws (json_items (kv :: l) +:+ "}") = String DQ t) as ->
      by (rewrite Ht; reflexivity).
    cbv beta iota. cbn [Ascii.eqb Bool.eqb DQ]. cbv beta iota.
    change (String "034" t) with (String DQ t). rewrite <- Ht.
    rewrite (parse_members_items (kv :: l) _ ∅ ""); [| done | | done].
    + cbn [skip_ws]. rewrite <- Hl at 1.
      fold (dict_of_items (map_to_list d)).
      by rewrite dict_of_items_to_list.
    + rewrite !string_length_app. pose proof (json_items_length (kv :: l)).
      cbn [String.length]. lia.
Qed.

(** C5.  When the model classifies the coordinate to [cl], the lookup
    half of [score] issues exactly the query for [cl]; a record it
    returns has [cl] as its [cid], and it does return one as soon as
    the partition of [cl] has a row; whatever record [score] finally
    returns carries that [cid] too. *)
Theorem score_lookup_cid lon lat w predict cl :
  NoDup (columns w) →
  ml w = Some predict → predict lon lat = Some cl →
  (cluster_partition w cl ≠ [] →
   ∃ d, score_lookup lon lat w
        = (Ok d, with_trace (trace w ++ [EvSelect cl 1]) w))
  ∧ (∀ d w', score_lookup lon lat w = (Ok d, w') →
             d !! "cid" = Some (PInt cl)
             ∧ w' = with_trace (trace w ++ [EvSelect cl 1]) w)
  ∧ (∀ d w', score lon lat w = (Ok d, w') → d !! "cid" = Some (PInt cl)).
Proof.
  intros Hnd Hml Hp.
  assert (∀ d w', score_lookup lon lat w = (Ok d, w') →
                  d !! "cid" = Some (PInt cl)
                  ∧ w' = with_trace (trace w ++ [EvSelect cl 1]) w) as Hcid.
  { intros d w' Hl.
    destruct (cluster_partition w cl) as [|r rest] eqn:Hs.
    - by rewrite (score_lookup_empty lon lat w predict cl) in Hl.
    - rewrite (score_lookup_ok lon lat w predict cl r rest) in Hl by done.
      injection Hl as <- <-. split; [|done].
      rewrite dict_zip_lookup; [|done]. by apply partition_head in Hs. }
  split; [|split; [exact Hcid|]].
  - intros Hne. destruct (cluster_partition w cl) as [|r rest] eqn:Hs; [done|].
    eexists. by eapply score_lookup_ok.
  - intros d w' H. unfold score, bind in H.
    destruct (score_lookup lon lat w) as [[d0|e] w0] eqn:Hl; [|done].
    rewrite (score_enrich_frame _ _ _ _ "cid" H) by done.
    by apply (Hcid d0 w0).
Qed.

(** C6.  When the partition of the classified cluster is empty,
    [rows[0]] raises [IndexError] (the notebook's not-found failure)
    after exactly one query; [score], [recommender] in any format and
    [recommender_api] all end with that exception, with no further
    query, no external call and no write. *)
Theorem empty_partition_raises lon lat w predict cl :
  ml w = Some predict → predict lon lat = Some cl →
  cluster_partition w cl = [] →
  let w' := with_trace (trace w ++ [EvSelect cl 1]) w in
  score lon lat w = (Raise IndexError, w')
  ∧ (∀ format notebook,
       recommender lon lat format notebook w = (Raise IndexError, w'))
  ∧ (∀ slon slat,
       float_of_str slon = Some lon → float_of_str slat = Some lat →
       recommender_api slon slat w = (Raise IndexError, w')).
Proof.
  intros Hml Hp Hempty w'.
  assert (score lon lat w = (Raise IndexError, w')) as Hs.
  { apply score_raises. by eapply score_lookup_empty. }
  split; [done|]. split.
  - intros. by apply recommender_raises.
  - intros slon slat Hx Hy. rewrite (recommender_api_parsed _ _ _ _ _ Hx Hy).
    by apply recommender_raises.
Qed.

(** C7.  [geturl] on a string always returns, and when its [try] block
    raises (the call failed, or the service listed no result) it returns
    the empty string.  In a request whose stored link is absent and whose
    lookup fails, [score] returns the looked-up record with [url] set to
    the empty string and every other field as stored, and [recommender]
    answers in either format.  Nothing else is recovered: the exception
    of every other step is the outcome of the function the step is in
    and of its callers.  These are the classification, the empty result
    of the query, the three subscripts of [score], [quote] on a name
    that is no string (which sits before the [try]), the UPDATE, the
    subscript of [recommender] and the two [float]s of
    [recommender_api]. *)
Theorem lookup_failure_swallowed lon lat w predict cl r rest name :
  NoDup (columns w) →
  ml w = Some predict → predict lon lat = Some cl →
  cluster_partition w cl = r :: rest →
  row_col (columns w) "url" r = Some PNone →
  row_col (columns w) "name" r = Some (PStr name) →
  lookup_fails (opensearch w (opensearch_url (quote name))) →
  (∀ s w0,
      let w1 := with_trace
                  (trace w0 ++ [EvUrlopen (opensearch_url (quote s))]) w0 in
      (∃ u, geturl (PStr s) w0 = (Ok u, w1))
      ∧ (∀ e w2, geturl_try (quote s) w0 = (Raise e, w2) →
                 geturl (PStr s) w0 = (Ok (PStr ""), w2))
      ∧ (lookup_fails (opensearch w0 (opensearch_url (quote s))) →
         (∃ e, geturl_try (quote s) w0 = (Raise e, w1))
         ∧ geturl (PStr s) w0 = (Ok (PStr ""), w1)))
  ∧ (∃ d w1,
      score lon lat w = (Ok d, w1)
      ∧ d !! "url" = Some (PStr "")
      ∧ (∀ c, c ≠ "url" → d !! c = row_col (columns w) c r)
      ∧ ∀ format notebook, ∃ resp,
          recommender lon lat format notebook w = (Ok resp, w1))
  ∧ (∀ x y w0,
      (ml w0 = None → score x y w0 = (Raise NameError, w0))
      ∧ (∀ p, ml w0 = Some p → p x y = None →
              score x y w0 = (Raise ValueError, w0))
      ∧ (∀ p c, ml w0 = Some p → p x y = Some c →
                cluster_partition w0 c = [] →
                score x y w0
                = (Raise IndexError,
                   with_trace (trace w0 ++ [EvSelect c 1]) w0))
      ∧ (∀ e w', score_lookup x y w0 = (Raise e, w') →
                 score x y w0 = (Raise e, w'))
      ∧ ∀ d w1, score_lookup x y w0 = (Ok d, w1) →
          (d !! "url" = None → score x y w0 = (Raise (KeyError "url"), w1))
          ∧ (d !! "url" = Some PNone →
             (d !! "name" = None →
              score x y w0 = (Raise (KeyError "name"), w1))
             ∧ ∀ n, d !! "name" = Some n →
                 (∀ e w', geturl n w1 = (Raise e, w') →
                          score x y w0 = (Raise e, w'))
                 ∧ ∀ u w2, geturl n w1 = (Ok u, w2) →
                     (d !! "cid" = None →
                      score x y w0 = (Raise (KeyError "cid"), w2))
                     ∧ ∀ c e w',
                         d !! "cid" = Some c →
                         session_execute_text
                           (update_prefix +:+ py_str u +:+ "'"
                              +:+ update_where +:+ py_str c) w2
                         = (Raise e, w') →
                         score x y w0 = (Raise e, w')))
  ∧ (∀ v w0, (∀ s, v ≠ PStr s) → geturl v w0 = (Raise TypeError, w0))
  ∧ (∀ x y w0 w',
      (∀ e, score x y w0 = (Raise e, w') →
            ∀ format notebook,
              recommender x y format notebook w0 = (Raise e, w'))
      ∧ (∀ d, score x y w0 = (Ok d, w') → d !! "name" = None →
              ∀ format notebook,
                recommender x y format notebook w0
                = (Raise (KeyError "name"), w'))
      ∧ (∀ e, recommender x y "json" false w0 = (Raise e, w') →
              ∀ slon slat,
                float_of_str slon = Some x → float_of_str slat = Some y →
                recommender_api slon slat w0 = (Raise e, w')))
  ∧ (∀ slon slat w0,
      float_of_str slon = None
      ∨ (is_Some (float_of_str slon) ∧ float_of_str slat = None) →
      recommender_api slon slat w0 = (Raise ValueError, w0)).
Proof.
  intros Hnd Hml Hp Hsel Hurl Hname Hfail.
  split; [|split; [|split; [|split; [|split]]]].
  - intros s w0 w1. split; [|split].
    + rewrite geturl_str. eauto.
    + intros e w2 H. unfold geturl, finally_return. by rewrite H.
    + intros Hf. split.
      * unfold geturl_try, bind, emit. cbv beta iota zeta.
        change (opensearch (with_trace _ w0)) with (opensearch w0).
        destruct Hf as [-> | ->]; eauto.
      * rewrite geturl_str. by rewrite looked_up_fails.
  - pose proof (score_failed_lookup _ _ _ _ _ _ _ _ Hnd Hml Hp Hsel Hurl
                  Hname Hfail) as Hs.
    eexists _, _. split; [exact Hs|].
    split; [by rewrite lookup_insert_eq|]. split.
    + intros c Hc. rewrite lookup_insert_ne by done. by apply dict_zip_lookup.
    + intros format notebook.
      assert (is_Some (<["url":=PStr ""]>
                (dict_of_items (zip (columns w) r)) !! "name")) as Hn.
      { rewrite lookup_insert_ne by done. rewrite dict_zip_lookup by done.
        rewrite Hname. eauto. }
      rewrite (recommender_ok _ _ format notebook _ _ _ Hs Hn).
      match goal with
      | |- context [render ?d0 ?f ?w0] =>
          destruct (render_total d0 f w0) as [rd ->]; [|exact Hn|eauto]
      end.
      rewrite lookup_insert_eq. eauto.
  - intros x y w0. split; [|split; [|split; [|split]]].
    + intros H. unfold score, score_lookup, bind, ml_predict. by rewrite H.
    + intros p H1 H2. unfold score, score_lookup, bind, ml_predict.
      by rewrite H1, H2.
    + intros p c H1 H2 H3. apply score_raises. by eapply score_lookup_empty.
    + intros e w'. apply score_raises.
    + intros d w1 Hl. rewrite score_unfold, Hl.
      unfold score_enrich, bind, getitem. split.
      * by intros ->.
      * intros ->. cbn [ret]. rewrite decide_True by done. split.
        -- by intros ->.
        -- intros n ->. cbn [ret]. split.
           ++ by intros e w' ->.
           ++ intros u w2 ->. rewrite lookup_insert_eq. cbn [ret].
              rewrite lookup_insert_ne by done. split.
              ** by intros ->.
              ** intros c e w' -> H. cbn [ret]. by rewrite H.
  - intros v w0 Hv. destruct v as [| | |s| | |]; try done. by destruct (Hv s).
  - intros x y w0 w'. split; [|split].
    + intros e Hs format notebook. by apply recommender_raises.
    + intros d Hs Hn format notebook. unfold recommender, bind, getitem.
      by rewrite Hs, Hn.
    + intros e Hr slon slat Hx Hy.
      by rewrite (recommender_api_parsed _ _ _ _ _ Hx Hy).
  - intros slon slat w0 H. unfold recommender_api, bind, py_float.
    destruct H as [-> | [[x ->] ->]]; done.
Qed.

(** C8.  [recommender_api] parses the longitude, then the latitude,
    with [float]; a parameter that does not parse makes it raise
    [ValueError] (the notebook's invalid-coordinate failure) before
    anything else happens.  Once both are parsed the whole pipeline
    runs on them: the model classifies the point, the query for that
    cluster is issued and its first row packaged, the link is taken from
    the row or, when the row has none, looked up under the row's name
    and written back, and the response is the [json.dumps] text of the
    resulting record, as plain text. *)
Theorem recommender_api_pipeline slon slat w :
  (float_of_str slon = None →
   recommender_api slon slat w = (Raise ValueError, w))
  ∧ (is_Some (float_of_str slon) → float_of_str slat = None →
     recommender_api slon slat w = (Raise ValueError, w))
  ∧ ∀ lon lat predict cl r rest name,
      float_of_str slon = Some lon → float_of_str slat = Some lat →
      NoDup (columns w) →
      ml w = Some predict → predict lon lat = Some cl →
      cluster_partition w cl = r :: rest →
      row_col (columns w) "name" r = Some (PStr name) →
      let d := dict_of_items (zip (columns w) r) in
      (∀ u, row_col (columns w) "url" r = Some u → u ≠ PNone →
         recommender_api slon slat w
         = (Ok (Text (json_dumps d)),
            with_trace (trace w ++ [EvSelect cl 1]) w))
      ∧ (row_col (columns w) "url" r = Some PNone →
         let v := looked_up w name in
         quote_free (py_str v) = true →
         recommender_api slon slat w
         = (Ok (Text (json_dumps (<["url" := v]> d))),
            World (ml w) (columns w)
              (update_url (columns w) cl (PStr (py_str v)) (rows w))
              (opensearch w)
              (trace w ++ [EvSelect cl 1;
                           EvUrlopen (opensearch_url (quote name));
                           EvUpdate (update_prefix +:+ py_str v +:+ "'"
                                       +:+ update_where +:+ int_repr cl)]))).
Proof.
  split; [|split].
  - intros H. unfold recommender_api, bind, py_float. by rewrite H.
  - intros [x Hx] Hy. unfold recommender_api, bind, py_float.
    by rewrite Hx, Hy.
  - intros lon lat predict cl r rest name Hx Hy Hnd Hml Hp Hpart Hname d.
    rewrite (recommender_api_parsed _ _ _ _ _ Hx Hy).
    pose proof (partition_head _ _ _ _ Hpart) as Hcid.
    split.
    + intros u Hu Hne.
      apply (recommender_json lon lat false w d).
      * by eapply score_link_present.
      * unfold d. rewrite dict_zip_lookup by done. by rewrite Hname.
    + intros Hu v Hq.
      apply (recommender_json lon lat false w (<["url" := v]> d)).
      * rewrite score_unfold,
          (score_lookup_ok lon lat w predict cl r rest) by done.
        fold d. set (w0 := with_trace (trace w ++ [EvSelect cl 1]) w).
        rewrite (score_enrich_absent d name cl w0).
        -- cbn. by rewrite <- app_assoc.
        -- unfold d. by rewrite dict_zip_lookup.
        -- unfold d. by rewrite dict_zip_lookup.
        -- unfold d. by rewrite dict_zip_lookup.
        -- done.
        -- unfold row_col in Hu. cbn.
           by destruct (col_index (columns w) "url").
        -- unfold in_partition, row_col in Hcid. cbn.
           by destruct (col_index (columns w) "cid").
      * rewrite lookup_insert_ne by done. unfold d.
        rewrite dict_zip_lookup by done. by rewrite Hname.
Qed.

(** C9.  In a request whose stored link is absent and whose lookup
    fails, [score] still executes the UPDATE, with the empty string as
    the link, and the table holds it afterwards.  From then on a request
    for the same cluster reads the empty string, finds it different from
    [None] and returns it: it makes no external call and no write,
    whatever the service would answer by then, and it leaves the table
    as it found it; so does every run of such requests. *)
Theorem failed_lookup_cached_forever lon lat w predict cl r rest name :
  NoDup (columns w) →
  ml w = Some predict → predict lon lat = Some cl →
  cluster_partition w cl = r :: rest →
  row_col (columns w) "url" r = Some PNone →
  row_col (columns w) "name" r = Some (PStr name) →
  lookup_fails (opensearch w (opensearch_url (quote name))) →
  ∃ d w1,
    score lon lat w = (Ok d, w1)
    ∧ d !! "url" = Some (PStr "")
    ∧ trace w1
      = trace w ++ [EvSelect cl 1;
                    EvUrlopen (opensearch_url (quote name));
                    EvUpdate (update_prefix +:+ "'" +:+ update_where
                                +:+ int_repr cl)]
    ∧ rows w1 = update_url (columns w) cl (PStr "") (rows w)
    ∧ (∀ w2 predict2 lon2 lat2,
         columns w2 = columns w → rows w2 = rows w1 →
         ml w2 = Some predict2 → predict2 lon2 lat2 = Some cl →
         ∃ d2, score lon2 lat2 w2
               = (Ok d2, with_trace (trace w2 ++ [EvSelect cl 1]) w2)
               ∧ d2 !! "url" = Some (PStr ""))
    ∧ (∀ coords,
         Forall (λ c, predict c.1 c.2 = Some cl) coords →
         ∃ ds, score_all coords w1
               = (Ok ds,
                  with_trace
                    (trace w1 ++ replicate (length coords) (EvSelect cl 1)) w1)
               ∧ Forall (λ d2, d2 !! "url" = Some (PStr "")) ds).
Proof.
  intros Hnd Hml Hp Hpart Hurl Hname Hfail.
  eexists _, _. split; [by eapply score_failed_lookup|].
  split; [by rewrite lookup_insert_eq|]. split; [done|]. split; [done|].
  set (r' := row_set (columns w) "url" (PStr "") r).
  assert (row_col (columns w) "url" r' = Some (PStr "")) as Hurl'
    by by eapply row_col_row_set_eq.
  assert (∀ w2, columns w2 = columns w →
                rows w2 = update_url (columns w) cl (PStr "") (rows w) →
                cluster_partition w2 cl
                = r' :: (row_set (columns w) "url" (PStr "") <$> rest))
    as Hpart2.
  { intros w2 Hcols Hrows. unfold cluster_partition. rewrite Hcols, Hrows.
    by apply update_url_partition. }
  assert (dict_of_items (zip (columns w) r') !! "url" = Some (PStr ""))
    as Hd by by rewrite dict_zip_lookup.
  split.
  - cbn [rows]. intros w2 predict2 lon2 lat2 Hcols Hrows Hml2 Hp2.
    exists (dict_of_items (zip (columns w2) r')). split.
    + eapply (score_link_present lon2 lat2 w2 predict2 cl r' _ (PStr ""));
        [by rewrite Hcols|done|done|by apply Hpart2|by rewrite Hcols|done].
    + by rewrite Hcols.
  - intros coords Hall.
    exists (replicate (length coords) (dict_of_items (zip (columns w) r'))).
    split.
    + match goal with
      | |- score_all coords ?w1 = _ =>
          eapply (score_all_link_present coords w1 predict cl r' _ (PStr ""));
            [done|done|done|by apply Hpart2|done|done]
      end.
    + by apply Forall_replicate.
Qed.

(** C10.  On a record returned by [score] (the table has no column
    [url_html]), the narrative branch of the rendering line stores the
    key [url_html] in the very dictionary it was given, so the record
    afterwards differs from the one [score] returned, all other keys
    being as they were; the structured branch leaves the record as it
    was. *)
Theorem narrative_render_mutates_record lon lat w d w1 :
  NoDup (columns w) → "url_html" ∉ columns w →
  score lon lat w = (Ok d, w1) → is_Some (d !! "name") →
  (∃ out d', render d "html" w1 = (Ok (out, d'), w1)
             ∧ d !! "url_html" = None
             ∧ is_Some (d' !! "url_html")
             ∧ d' ≠ d
             ∧ ∀ k, k ≠ "url_html" → d' !! k = d !! k)
  ∧ render d "json" w1 = (Ok (json_dumps d, d), w1).
Proof.
  intros Hnd Hcol Hs [name Hn].
  destruct (score_has_url _ _ _ _ _ Hs) as [url Hu].
  pose proof (score_no_url_html _ _ _ _ _ Hnd Hcol Hs) as Hnone.
  split; [|done].
  eexists _, _. split; [apply (html_template_ok d url name w1 Hu Hn)|].
  split; [done|]. split; [rewrite lookup_insert_eq; eauto|]. split.
  - intros E. rewrite <- E in Hnone. by rewrite lookup_insert_eq in Hnone.
  - intros k Hk. by rewrite lookup_insert_ne.
Qed.

(** ** Further properties of the notebook's functions *)

(** *** What [score] returns and what it does on the way *)


(** X2.  What one call of [score] does to the outside, in order.
    Nothing at all when the classification fails.  Otherwise the query
    for the classified cluster comes first, and it is all there is when
    the cluster has no row.  A request to the service follows only when
    the first row has [None] as its link and a string as its name, and
    it is the request for that name; an UPDATE follows only such a
    request, and it is the statement made of what the lookup came back
    with and of the row's [cid].  There is never more. *)
Theorem score_effects_in_order lon lat w :
  let w' := (score lon lat w).2 in
  match ml w with
  | None => trace w' = trace w
  | Some predict =>
      match predict lon lat with
      | None => trace w' = trace w
      | Some cl =>
          match cluster_partition w cl with
          | [] => trace w' = trace w ++ [EvSelect cl 1]
          | r :: _ =>
              let d := dict_of_items (zip (columns w) r) in
              trace w' = trace w ++ [EvSelect cl 1]
              ∨ ∃ name,
                  d !! "url" = Some PNone ∧ d !! "name" = Some (PStr name)
                  ∧ let url := EvUrlopen (opensearch_url (quote name)) in
                    trace w' = trace w ++ [EvSelect cl 1; url]
                    ∨ ∃ c, d !! "cid" = Some c
                        ∧ trace w'
                          = trace w
                              ++ [EvSelect cl 1; url;
                                  EvUpdate
                                    (update_prefix
                                       +:+ py_str (looked_up w name) +:+ "'"
                                       +:+ update_where +:+ py_str c)]
          end
      end
  end.
Proof.
  cbv zeta. rewrite score_unfold.
  destruct (score_lookup_outcomes lon lat w)
    as [[Hml ->] | [(p & Hml & Hp & ->) | [(p & cl & Hml & Hp & Hpart & ->)
       | (p & cl & r & rest & Hml & Hp & Hpart & ->)]]];
    rewrite Hml; [done|rewrite Hp; done|rewrite Hp, Hpart; done|].
  rewrite Hp, Hpart.
  match goal with
  | |- context [score_enrich ?d0 ?w0] =>
      destruct (score_enrich_outcomes d0 w0)
        as [[_ ->] | [(u & _ & _ & ->) | [(_ & _ & ->) | [(n & _ & _ & _ & ->)
           | [(name & Hu & Hn & _ & ->) | (name & c & Hu & Hn & Hc & H)]]]]]
  end; try by left.
  - right. exists name. split; [done|]. split; [done|]. left. cbn.
    by rewrite <- app_assoc.
  - cbn zeta in H. right. exists name. split; [done|]. split; [done|].
    right. exists c. split; [done|].
    destruct H as [-> | (lit & cid & _ & ->)]; cbn; by rewrite <- app_assoc.
Qed.

(** *** The table under [score] *)

Lemma update_url_lookup cols cid v (rs : list (list pyval)) i row :
  Exists (in_partition cols cid) rs →
  rs !! i = Some row →
  update_url cols cid v rs !! i
  = Some (if decide (in_partition cols cid row)
          then row_set cols "url" v row else row).
Proof.
  intros Hex Hi. unfold update_url. rewrite decide_True by done.
  by rewrite list_lookup_fmap, Hi.
Qed.

Lemma update_url_length cols cid v (rs : list (list pyval)) :
  Exists (in_partition cols cid) rs →
  length (update_url cols cid v rs) = length rs.
Proof.
  intros Hex. unfold update_url. rewrite decide_True by done.
  by rewrite length_fmap.
Qed.

Lemma row_set_length cols c v (r : list pyval) :
  length (row_set cols c v r) = length r.
Proof.
  unfold row_set. destruct (col_index cols c); [|done]. apply length_insert.
Qed.

Lemma partition_Exists w cid r rest :
  cluster_partition w cid = r :: rest →
  Exists (in_partition (columns w) cid) (rows w).
Proof.
  intros Hp. apply Exists_exists. exists r.
  assert (r ∈ cluster_partition w cid) as Hin
    by (rewrite Hp; apply list_elem_of_here).
  by apply list_elem_of_filter in Hin as [? ?].
Qed.

Lemma looked_up_quote_free w name :
  service_quote_free w → quote_free (py_str (looked_up w name)) = true.
Proof.
  intros Hs. unfold looked_up.
  destruct (opensearch w _) as [|[|u us]] eqn:E; [done..|]. by eapply Hs.
Qed.

(** With distinct column names and answers without quote in their
    text, the ways [score] can end once the partition has a first row
    [r]. *)
Lemma score_first_row lon lat w predict cl r rest :
  NoDup (columns w) → service_quote_free w →
  ml w = Some predict → predict lon lat = Some cl →
  cluster_partition w cl = r :: rest →
  let w0 := with_trace (trace w ++ [EvSelect cl 1]) w in
  let d0 := dict_of_items (zip (columns w) r) in
  (∃ e, score lon lat w = (Raise e, w0))
  ∨ (∃ u, row_col (columns w) "url" r = Some u ∧ u ≠ PNone
       ∧ score lon lat w = (Ok d0, w0))
  ∨ (∃ name, row_col (columns w) "url" r = Some PNone
       ∧ row_col (columns w) "name" r = Some (PStr name)
       ∧ score lon lat w
         = (Ok (<["url" := looked_up w name]> d0),
            World (ml w) (columns w)
              (update_url (columns w) cl (PStr (py_str (looked_up w name)))
                 (rows w))
              (opensearch w)
              (trace w ++ [EvSelect cl 1;
                           EvUrlopen (opensearch_url (quote name));
                           EvUpdate (update_prefix
                                       +:+ py_str (looked_up w name)
                                       +:+ "'" +:+ update_where
                                       +:+ int_repr cl)]))).
Proof.
  intros Hnd Hsq Hml Hp Hpart w0 d0.
  pose proof (partition_head _ _ _ _ Hpart) as Hcid.
  rewrite score_unfold, (score_lookup_ok lon lat w predict cl r rest) by done.
  fold w0 d0.
  assert (∀ c, d0 !! c = row_col (columns w) c r) as Hd
    by (intros c; by apply dict_zip_lookup).
  destruct (row_col (columns w) "url" r) as [u|] eqn:Hu.
  2: { left. destruct (score_enrich_outcomes d0 w0)
         as [[_ ->] | [(u & Hu' & _) | [(Hu' & _) | [(n & Hu' & _)
            | [(name & Hu' & _) | (name & c & Hu' & _)]]]]];
         [eauto|rewrite Hd, Hu in Hu'; done..]. }
  destruct (decide (u = PNone)) as [->|Hne].
  2: { right; left. exists u. split; [done|]. split; [done|].
       apply (score_enrich_present d0 u); [by rewrite Hd|done]. }
  destruct (row_col (columns w) "name" r) as [n|] eqn:Hn.
  2: { left. destruct (score_enrich_outcomes d0 w0)
         as [[Hu' _] | [(u & Hu' & Hne & _) | [(_ & _ & ->) | [(n & _ & Hn' & _)
            | [(name & _ & Hn' & _) | (name & c & _ & Hn' & _)]]]]];
         [rewrite Hd, Hu in Hu'; done
         |rewrite Hd, Hu in Hu'; by injection Hu' as <-
         |eauto|rewrite Hd, Hn in Hn'; done..]. }
  destruct n as [|z|b|name|b|l|l].
  4: { right; right. exists name. split; [done|]. split; [done|].
       rewrite (score_enrich_absent d0 name cl w0).
       - cbn. by rewrite <- app_assoc.
       - by rewrite Hd.
       - by rewrite Hd.
       - by rewrite Hd.
       - by apply looked_up_quote_free.
       - unfold row_col in Hu. cbn. by destruct (col_index (columns w) "url").
       - unfold in_partition, row_col in Hcid. cbn.
         by destruct (col_index (columns w) "cid"). }
  all: left; exists TypeError;
    unfold score_enrich, bind, getitem; rewrite !Hd, Hu; cbn [ret];
    rewrite decide_True by done; rewrite Hn; reflexivity.
Qed.

(** X3.  With distinct column names and a service whose answers have no
    single quote in their text, a call of [score] leaves the model, the
    columns and the service as they are, adds no row and deletes none,
    and in every row keeps every column but [url]; rows outside the
    classified cluster are not touched at all. *)
Theorem score_changes_links_only lon lat w :
  NoDup (columns w) → service_quote_free w →
  let w' := (score lon lat w).2 in
  ml w' = ml w ∧ columns w' = columns w ∧ opensearch w' = opensearch w
  ∧ length (rows w') = length (rows w)
  ∧ ∀ i row, rows w !! i = Some row →
      ∃ row', rows w' !! i = Some row'
        ∧ length row' = length row
        ∧ (∀ c, c ≠ "url" →
             row_col (columns w) c row' = row_col (columns w) c row)
        ∧ (∀ predict cl,
             ml w = Some predict → predict lon lat = Some cl →
             ¬ in_partition (columns w) cl row → row' = row).
Proof.
  intros Hnd Hsq. cbv zeta.
  assert (∀ res t, score lon lat w = (res, with_trace t w) →
          ml (score lon lat w).2 = ml w
          ∧ columns (score lon lat w).2 = columns w
          ∧ opensearch (score lon lat w).2 = opensearch w
          ∧ length (rows (score lon lat w).2) = length (rows w)
          ∧ ∀ i row, rows w !! i = Some row →
              ∃ row', rows (score lon lat w).2 !! i = Some row'
                ∧ length row' = length row
                ∧ (∀ c, c ≠ "url" →
                     row_col (columns w) c row' = row_col (columns w) c row)
                ∧ (∀ predict cl,
                     ml w = Some predict → predict lon lat = Some cl →
                     ¬ in_partition (columns w) cl row → row' = row))
    as Hsame.
  { intros res t ->. cbn. repeat split; try done.
    intros i row Hi. exists row. by repeat split. }
  destruct (score_lookup_outcomes lon lat w)
    as [[_ Hl] | [(p & _ & _ & Hl) | [(p & cl & _ & _ & _ & Hl)
       | (p & cl & r & rest & Hml & Hp & Hpart & _)]]].
  - apply (Hsame (Raise NameError) (trace w)).
    rewrite score_unfold, Hl. by destruct w.
  - apply (Hsame (Raise ValueError) (trace w)).
    rewrite score_unfold, Hl. by destruct w.
  - eapply Hsame. by rewrite score_unfold, Hl.
  - destruct (score_first_row lon lat w p cl r rest Hnd Hsq Hml Hp Hpart)
      as [[e He] | [(u & _ & _ & He) | (name & _ & _ & He)]];
      [by eapply Hsame..|].
    rewrite He. cbn. pose proof (partition_Exists _ _ _ _ Hpart) as Hex.
    split; [done|]. split; [done|]. split; [done|].
    split; [by apply update_url_length|].
    intros i row Hi. rewrite (update_url_lookup _ _ _ _ _ _ Hex Hi).
    eexists. split; [done|].
    destruct (decide (in_partition (columns w) cl row)) as [Hin|Hout].
    + split; [apply row_set_length|]. split.
      * intros c Hc. by apply row_col_row_set_ne.
      * intros predict cl' Hml' Hp'. rewrite Hml in Hml'.
        injection Hml' as <-. rewrite Hp in Hp'. by injection Hp' as <-.
    + by repeat split.
Qed.

(** A call of [score] writes only on its way to a record with a name. *)
Lemma score_rows_cases lon lat w res w' :
  score lon lat w = (res, w') →
  rows w' = rows w
  ∨ ∃ d name, res = Ok d ∧ d !! "name" = Some (PStr name).
Proof.
  rewrite score_unfold.
  destruct (score_lookup_outcomes lon lat w)
    as [[_ ->] | [(p & _ & _ & ->) | [(p & cl & _ & _ & _ & ->)
       | (p & cl & r & rest & _ & _ & _ & ->)]]];
    try (intros [= _ <-]; by left).
  match goal with
  | |- score_enrich ?d0 ?w0 = _ → _ =>
      destruct (score_enrich_outcomes d0 w0)
        as [[_ ->] | [(u & _ & _ & ->) | [(_ & _ & ->) | [(n & _ & _ & _ & ->)
           | [(name & _ & _ & _ & ->) | (name & c & _ & Hn & _ & H)]]]]]
  end; try (intros [= _ <-]; by left).
  cbn zeta in H. destruct H as [-> | (lit & cid & _ & ->)].
  - intros [= _ <-]. by left.
  - intros [= <- _]. right. eexists _, name. split; [done|].
    by rewrite lookup_insert_ne.
Qed.

(** X4.  A request that fails has not changed the table, at whichever
    of the three levels it is made. *)
Theorem failed_request_leaves_table w :
  (∀ lon lat e w', score lon lat w = (Raise e, w') → rows w' = rows w)
  ∧ (∀ lon lat format notebook e w',
       recommender lon lat format notebook w = (Raise e, w') →
       rows w' = rows w)
  ∧ (∀ slon slat e w',
       recommender_api slon slat w = (Raise e, w') → rows w' = rows w).
Proof.
  assert (∀ lon lat e w', score lon lat w = (Raise e, w') → rows w' = rows w)
    as Hscore.
  { intros lon lat e w' H.
    by destruct (score_rows_cases _ _ _ _ _ H) as [? | (d & name & ? & _)]. }
  assert (∀ lon lat format notebook e w',
            recommender lon lat format notebook w = (Raise e, w') →
            rows w' = rows w) as Hrec.
  { intros lon lat format notebook e w' H.
    destruct (score lon lat w) as [[d|e0] w1] eqn:Hs.
    - destruct (d !! "name") as [n|] eqn:Hn.
      + rewrite (recommender_ok _ _ _ _ _ _ _ Hs) in H by eauto.
        destruct (render_total d format w1) as [rd Hr];
          [by eapply score_has_url|eauto|]. by rewrite Hr in H.
      + unfold recommender, bind, getitem in H. rewrite Hs, Hn in H.
        injection H as _ <-.
        destruct (score_rows_cases _ _ _ _ _ Hs) as [? | (d' & name & Hd & Hn')];
          [done|]. injection Hd as <-. by rewrite Hn in Hn'.
    - rewrite (recommender_raises _ _ _ _ _ _ _ Hs) in H.
      injection H as _ <-. by eapply Hscore. }
  split; [exact Hscore|]. split; [exact Hrec|].
  intros slon slat e w' H.
  destruct (float_of_str slon) as [x|] eqn:Hx.
  2: { unfold recommender_api, bind, py_float in H. rewrite Hx in H.
       by injection H as _ <-. }
  destruct (float_of_str slat) as [y|] eqn:Hy.
  2: { unfold recommender_api, bind, py_float in H. rewrite Hx, Hy in H.
       by injection H as _ <-. }
  rewrite (recommender_api_parsed _ _ _ _ _ Hx Hy) in H. by eapply Hrec.
Qed.

Lemma dict_zip_row_set cols c v (r : list pyval) old :
  NoDup cols → row_col cols c r = Some old →
  dict_of_items (zip cols (row_set cols c v r))
  = <[c := v]> (dict_of_items (zip cols r)).
Proof.
  intros Hnd Hc. apply map_eq. intros k.
  rewrite dict_zip_lookup by done.
  destruct (decide (c = k)) as [<-|Hne].
  - rewrite lookup_insert_eq. by eapply row_col_row_set_eq.
  - rewrite lookup_insert_ne by done. rewrite dict_zip_lookup by done.
    by apply row_col_row_set_ne.
Qed.

(** X5.  What is looked up is looked up once.  In a request whose
    stored link is absent and whose lookup comes back with a value
    whose text holds no quote, [score] returns the record with that
    value as its link and writes the text of the value to the table.  A
    later request for the same cluster then returns, after its query
    alone and whatever the service answers by then, the record with the
    text as its link: the very same record when the value was a string,
    and another one when it was not. *)
Theorem looked_up_link_is_cached lon lat w predict cl r rest name :
  NoDup (columns w) →
  ml w = Some predict → predict lon lat = Some cl →
  cluster_partition w cl = r :: rest →
  row_col (columns w) "url" r = Some PNone →
  row_col (columns w) "name" r = Some (PStr name) →
  quote_free (py_str (looked_up w name)) = true →
  let v := looked_up w name in
  ∃ d w1,
    score lon lat w = (Ok d, w1)
    ∧ d !! "url" = Some v
    ∧ rows w1 = update_url (columns w) cl (PStr (py_str v)) (rows w)
    ∧ (∀ w2 predict2 lon2 lat2,
         columns w2 = columns w → rows w2 = rows w1 →
         ml w2 = Some predict2 → predict2 lon2 lat2 = Some cl →
         score lon2 lat2 w2
         = (Ok (<["url" := PStr (py_str v)]> d),
            with_trace (trace w2 ++ [EvSelect cl 1]) w2))
    ∧ ((∃ s, v = PStr s) ↔ <["url" := PStr (py_str v)]> d = d).
Proof.
  intros Hnd Hml Hp Hpart Hurl Hname Hq v.
  pose proof (partition_head _ _ _ _ Hpart) as Hcid.
  set (u := PStr (py_str v)).
  set (d0 := dict_of_items (zip (columns w) r)).
  set (w0 := with_trace (trace w ++ [EvSelect cl 1]) w).
  assert (score lon lat w
          = (Ok (<["url" := v]> d0),
             World (ml w) (columns w)
               (update_url (columns w) cl u (rows w)) (opensearch w)
               (trace w0 ++ [EvUrlopen (opensearch_url (quote name));
                             EvUpdate (update_prefix +:+ py_str v +:+ "'"
                                         +:+ update_where +:+ int_repr cl)])))
    as Hs.
  { rewrite score_unfold, (score_lookup_ok lon lat w predict cl r rest) by done.
    apply (score_enrich_absent d0 name cl w0).
    - unfold d0. by rewrite dict_zip_lookup.
    - unfold d0. by rewrite dict_zip_lookup.
    - unfold d0. by rewrite dict_zip_lookup.
    - done.
    - unfold row_col in Hurl. cbn. by destruct (col_index (columns w) "url").
    - unfold in_partition, row_col in Hcid. cbn.
      by destruct (col_index (columns w) "cid"). }
  eexists _, _. split; [exact Hs|].
  split; [by rewrite lookup_insert_eq|]. split; [done|]. split.
  - cbn [rows]. intros w2 predict2 lon2 lat2 Hcols Hrows Hml2 Hp2.
    set (r' := row_set (columns w) "url" u r).
    assert (cluster_partition w2 cl
            = r' :: (row_set (columns w) "url" u <$> rest)) as Hpart2.
    { unfold cluster_partition. rewrite Hcols, Hrows.
      by apply update_url_partition. }
    rewrite (score_link_present lon2 lat2 w2 predict2 cl r'
               (row_set (columns w) "url" u <$> rest) u);
      [|by rewrite Hcols|done|done|exact Hpart2| |done].
    + rewrite Hcols. unfold r'. erewrite dict_zip_row_set by done.
      by rewrite insert_insert_eq.
    + rewrite Hcols. by eapply row_col_row_set_eq.
  - rewrite insert_insert_eq. split.
    + intros [s Hv]. unfold u. by rewrite Hv.
    + intros E. assert (<["url" := u]> d0 !! "url"
                        = <["url" := v]> d0 !! "url") as E' by by rewrite E.
      rewrite !lookup_insert_eq in E'. injection E' as E'.
      exists (py_str v). by rewrite <- E'.
Qed.

(** X6.  A stored name that is no string (a null column) with an absent
    link: [quote] raises outside the [try] of [geturl], so [score] and
    [recommender] end with [TypeError] after the query, with no external
    call and no write. *)
Theorem score_null_name_raises lon lat w predict cl r rest n :
  NoDup (columns w) →
  ml w = Some predict → predict lon lat = Some cl →
  cluster_partition w cl = r :: rest →
  row_col (columns w) "url" r = Some PNone →
  row_col (columns w) "name" r = Some n →
  (∀ name, n ≠ PStr name) →
  let w' := with_trace (trace w ++ [EvSelect cl 1]) w in
  score lon lat w = (Raise TypeError, w')
  ∧ ∀ format notebook,
      recommender lon lat format notebook w = (Raise TypeError, w').
Proof.
  intros Hnd Hml Hp Hpart Hurl Hname Hn w'.
  assert (score lon lat w = (Raise TypeError, w')) as Hs.
  { rewrite score_unfold, (score_lookup_ok lon lat w predict cl r rest) by done.
    unfold score_enrich, bind, getitem.
    rewrite !dict_zip_lookup, Hurl by done. cbn [ret].
    rewrite decide_True by done. rewrite Hname. cbn [ret].
    destruct n as [|z|b|name|b|l|l]; try done. by destruct (Hn name). }
  split; [done|]. intros. by apply recommender_raises.
Qed.

(** *** Rendering *)

(** X7.  Rendering a record a second time gives the same sentence and
    changes nothing more: after the first call the dictionary already
    holds the [url_html] the second one stores. *)
Theorem html_template_twice d w out d1 w1 :
  html_template d w = (Ok (out, d1), w1) →
  w1 = w ∧ html_template d1 w1 = (Ok (out, d1), w1).
Proof.
  unfold html_template at 1. unfold bind, getitem.
  destruct (d !! "url") as [url|] eqn:Hu; [|done]. cbn [ret].
  destruct (d !! "name") as [name|] eqn:Hn; [|done]. cbn [ret].
  rewrite lookup_insert_eq. cbn [ret]. intros [= <- <- <-]. split; [done|].
  rewrite (html_template_ok _ url name).
  - by rewrite insert_insert_eq.
  - by rewrite lookup_insert_ne.
  - by rewrite lookup_insert_ne.
Qed.

(** X8.  Once [score] has returned a record, [recommender] adds no
    effect of its own.  It needs the key [name] in every format, the
    structured one included, and raises [KeyError] without it; with it,
    it cannot fail: ["html"] gives the sentence, any other format the
    JSON text, and [notebook] only chooses the wrapper. *)
Theorem recommender_after_score lon lat w d w1 :
  score lon lat w = (Ok d, w1) →
  (d !! "name" = None →
   ∀ format notebook,
     recommender lon lat format notebook w = (Raise (KeyError "name"), w1))
  ∧ (∀ name, d !! "name" = Some name →
     ∃ url, d !! "url" = Some url
       ∧ ∀ format notebook,
           let text := if String.eqb format "html"
                       then "What about visiting the "
                              +:+ py_str (link url name) +:+ "?"
                       else json_dumps d in
           recommender lon lat format notebook w
           = (Ok (if notebook then HTML text else Text text), w1)).
Proof.
  intros Hs. split.
  - intros Hn format notebook. unfold recommender, bind, getitem.
    by rewrite Hs, Hn.
  - intros name Hn. destruct (score_has_url _ _ _ _ _ Hs) as [url Hu].
    exists url. split; [done|]. intros format notebook text.
    rewrite (recommender_ok _ _ format notebook _ _ _ Hs) by eauto.
    unfold render, text. destruct (String.eqb format "html").
    + by rewrite (html_template_ok d url name w1 Hu Hn).
    + done.
Qed.

(** X9.  What the endpoint can answer.  A successful response is always
    the JSON text, as [Text], of the record [score] returned for the
    parsed coordinate, a record with a name and a link; the world
    afterwards is the one [score] left. *)
Theorem recommender_api_response slon slat w resp w' :
  recommender_api slon slat w = (Ok resp, w') →
  ∃ lon lat d,
    float_of_str slon = Some lon ∧ float_of_str slat = Some lat
    ∧ score lon lat w = (Ok d, w')
    ∧ resp = Text (json_dumps d)
    ∧ is_Some (d !! "name")
    ∧ is_Some (d !! "url").
Proof.
  intros H.
  destruct (float_of_str slon) as [lon|] eqn:Hx.
  2: { unfold recommender_api, bind, py_float in H. by rewrite Hx in H. }
  destruct (float_of_str slat) as [lat|] eqn:Hy.
  2: { unfold recommender_api, bind, py_float in H. by rewrite Hx, Hy in H. }
  rewrite (recommender_api_parsed _ _ _ _ _ Hx Hy) in H.
  destruct (score lon lat w) as [[d|e] w1] eqn:Hs.
  2: { by rewrite (recommender_raises _ _ _ _ _ _ _ Hs) in H. }
  destruct (d !! "name") as [n|] eqn:Hn.
  2: { unfold recommender, bind, getitem in H. by rewrite Hs, Hn in H. }
  rewrite (recommender_json _ _ false _ _ _ Hs) in H by eauto.
  injection H as <- <-. exists lon, lat, d.
  repeat (split; [done || eauto|]).
  by eapply score_has_url.
Qed.

(** Reading back the text of a dictionary, as a step of larger runs. *)
Lemma json_loads_dumps (d : gmap string pyval) :
  record_roundtrips d = true → json_loads (json_dumps d) = Some d.
Proof.
  intros Hd. unfold record_roundtrips in Hd. unfold json_loads, json_dumps.
  change (skip_ws ("{" +:+ ?x)) with (String "{" x).
  cbv beta iota. cbn [Ascii.eqb Bool.eqb]. cbv beta iota.
  destruct (map_to_list d) as [|kv l] eqn:Hl.
  { apply map_to_list_empty_iff in Hl as ->. reflexivity. }
  destruct (json_items_head (kv :: l) "}") as [t Ht]; [done|].
  assert (skip_ws (json_items (kv :: l) +:+ "}") = String DQ t) as ->
    by (rewrite Ht; reflexivity).
  cbv beta iota. cbn [Ascii.eqb Bool.eqb DQ]. cbv beta iota.
  change (String "034" t) with (String DQ t). rewrite <- Ht.
  rewrite (parse_members_items (kv :: l) _ ∅ ""); [| done | | done].
  - cbn [skip_ws]. rewrite <- Hl at 1.
    fold (dict_of_items (map_to_list d)). by rewrite dict_of_items_to_list.
  - rewrite !string_length_app. pose proof (json_items_length (kv :: l)).
    cbn [String.length]. lia.
Qed.

(** X10.  The endpoint on a cluster whose link is stored: one query, no
    external call, no write, and a body that reads back as the stored
    row, column by column. *)
Theorem recommender_api_serves_row slon slat lon lat w predict cl r rest u :
  NoDup (columns w) →
  float_of_str slon = Some lon → float_of_str slat = Some lat →
  ml w = Some predict → predict lon lat = Some cl →
  cluster_partition w cl = r :: rest →
  row_col (columns w) "url" r = Some u → u ≠ PNone →
  is_Some (row_col (columns w) "name" r) →
  record_roundtrips (dict_of_items (zip (columns w) r)) = true →
  ∃ body d,
    recommender_api slon slat w
    = (Ok (Text body), with_trace (trace w ++ [EvSelect cl 1]) w)
    ∧ json_loads body = Some d
    ∧ ∀ c, d !! c = row_col (columns w) c r.
Proof.
  intros Hnd Hx Hy Hml Hp Hpart Hu Hne Hn Hrt.
  pose proof (score_link_present lon lat w predict cl r rest u Hnd Hml Hp
                Hpart Hu Hne) as Hs.
  exists (json_dumps (dict_of_items (zip (columns w) r))),
         (dict_of_items (zip (columns w) r)).
  split; [|split].
  - rewrite (recommender_api_parsed _ _ _ _ _ Hx Hy).
    apply (recommender_json _ _ false _ _ _ Hs).
    by rewrite dict_zip_lookup.
  - by apply json_loads_dumps.
  - intros c. by apply dict_zip_lookup.
Qed.

(** *** A link with a quote in it *)

Lemma quote_free_app a b :
  quote_free (a +:+ b) = quote_free a && quote_free b.
Proof.
  induction a as [|c a IH]; simpl; [done|]. rewrite IH.
  by destruct (Ascii.eqb c "'").
Qed.

Lemma cql_string_body_unterminated t :
  quote_free t = true → cql_string_body t = None.
Proof.
  induction t as [|c t IH]; simpl; [done|].
  intros [Hc Hq]%andb_true_iff. apply negb_true_iff in Hc.
  by rewrite Hc, (IH Hq).
Qed.

Lemma strip_prefix_Some p s t : strip_prefix p s = Some t → s = p +:+ t.
Proof.
  revert s. induction p as [|a p IH]; intros s; simpl; [by intros [= ->]|].
  destruct s as [|b s]; [done|].
  destruct (Ascii.eqb_spec a b) as [->|]; [|done].
  intros H. by rewrite (IH _ H).
Qed.

Lemma uint_of_string_quote_free s d :
  NilEmpty.uint_of_string s = Some d → quote_free s = true.
Proof.
  revert d. induction s as [|c s IH]; intros d; simpl; [done|].
  destruct (NilEmpty.uint_of_string s) as [d'|] eqn:E.
  - rewrite (IH d' eq_refl).
    destruct c as [[] [] [] [] [] [] [] []]; simpl; done.
  - destruct c as [[] [] [] [] [] [] [] []]; simpl; done.
Qed.

Lemma int_of_str_quote_free s z : int_of_str s = Some z → quote_free s = true.
Proof.
  unfold int_of_str, NilZero.int_of_string.
  destruct s as [|a s]; [done|].
  destruct (Ascii.eqb_spec a "-") as [->|Hne].
  - unfold NilZero.uint_of_string. destruct s as [|b s]; [done|].
    destruct (NilEmpty.uint_of_string (String b s)) as [d|] eqn:E; [|done].
    intros _.
    change (quote_free (String "-" (String b s)))
      with (quote_free (String b s)).
    by rewrite (uint_of_string_quote_free _ _ E).
  - unfold NilZero.uint_of_string.
    destruct (NilEmpty.uint_of_string (String a s)) as [d|] eqn:E; [|done].
    intros _. by rewrite (uint_of_string_quote_free _ _ E).
Qed.

(** Where the scan of [u'tail] can stop when [u] holds a quote: either
    some quote of [u] ends the literal early, and what follows still
    holds a quote, or all quotes of [u] were doubled, and the literal is
    shorter than [u]. *)
Lemma cql_string_body_scan tail n u lit rest :
  quote_free tail = true → (String.length u ≤ n)%nat →
  cql_string_body (u +:+ "'" +:+ tail) = Some (lit, rest) →
  (String.length lit ≤ String.length u)%nat
  ∧ (quote_free u = false → (String.length lit < String.length u)%nat)
  ∧ (rest = tail ∨ quote_free rest = false).
Proof.
  intros Htail. revert u lit rest.
  induction n as [n IH] using lt_wf_ind. intros u lit rest Hlen.
  destruct u as [|c u'].
  - simpl. destruct tail as [|c' tail'].
    + intros [= <- <-]. split; [done|]. split; [done|]. by left.
    + simpl in Htail. apply andb_true_iff in Htail as [Hc' _].
      apply negb_true_iff in Hc'. rewrite Hc'.
      intros [= <- <-]. split; [simpl; lia|]. split; [done|]. by left.
  - cbn [String.append cql_string_body].
    destruct (Ascii.eqb_spec c "'") as [->|Hc].
    + destruct u' as [|c' u''].
      * cbn [String.append]. rewrite Ascii.eqb_refl.
        by rewrite (cql_string_body_unterminated tail Htail).
      * cbn [String.append].
        destruct (Ascii.eqb_spec c' "'") as [->|Hc'].
        -- destruct (cql_string_body (u'' +:+ String "'" tail))
             as [[lit' rest']|] eqn:E; [|by cbn].
           cbn [fmap option_fmap option_map prod_map fst snd id].
           intros [= <- <-].
           destruct (IH (String.length u'') ltac:(cbn in Hlen; lia)
                       u'' lit' rest' ltac:(lia) E) as (H1 & _ & H3).
           cbn [String.length]. split; [lia|]. split; [intros _; lia|done].
        -- intros [= <- <-]. cbn [String.length].
           split; [lia|]. split; [intros _; lia|].
           right. simpl. apply Ascii.eqb_neq in Hc'. rewrite Hc'. simpl.
           rewrite quote_free_app. simpl. by rewrite andb_false_r.
    + destruct (cql_string_body (u' +:+ String "'" tail))
        as [[lit' rest']|] eqn:E; [|by cbn].
      cbn [fmap option_fmap option_map prod_map fst snd id].
      intros [= <- <-].
      destruct (IH (String.length u') ltac:(cbn in Hlen; lia)
                  u' lit' rest' ltac:(lia) E) as (H1 & H2 & H3).
      cbn [String.length quote_free]. apply Ascii.eqb_neq in Hc. rewrite Hc.
      cbn [negb andb]. split; [lia|]. split; [|done].
      intros Hq. specialize (H2 Hq). lia.
Qed.

Lemma parse_update_quoted u cl lit cid :
  quote_free u = false →
  parse_update (update_prefix +:+ u +:+ "'" +:+ update_where +:+ int_repr cl)
  = Some (lit, cid) →
  lit ≠ u.
Proof.
  intros Hu H ->. unfold parse_update in H. rewrite strip_prefix_app in H.
  cbn [mbind option_bind] in H.
  destruct (cql_string_body (u +:+ "'" +:+ update_where +:+ int_repr cl))
    as [[lit' rest]|] eqn:E; [|done].
  cbn [mbind option_bind] in H.
  destruct (strip_prefix update_where rest) as [ctext|]; [|done].
  cbn [mbind option_bind] in H.
  destruct (int_of_str ctext) as [cid'|]; [|done].
  injection H as -> _.
  assert (quote_free (update_where +:+ int_repr cl) = true) as Htail.
  { rewrite quote_free_app. simpl.
    apply (int_of_str_quote_free _ cl), int_of_str_repr. }
  destruct (cql_string_body_scan _ (String.length u) u _ _ Htail
              (le_n _) E) as (_ & H2 & _).
  specialize (H2 Hu). lia.
Qed.

Lemma col_index_lookup cols c i : col_index cols c = Some i → cols !! i = Some c.
Proof.
  revert i. induction cols as [|k ks IH]; intros i; simpl; [done|].
  destruct (String.eqb_spec k c) as [->|_].
  - by intros [= <-].
  - destruct (col_index ks c) as [j|]; simpl; [|done].
    intros [= <-]. by apply IH.
Qed.

(** A row that holds [u] as its link after the write of another text was
    there before, as it is. *)
Lemma update_url_other_link cols cid lit u (rs : list (list pyval)) i row' :
  lit ≠ u →
  update_url cols cid (PStr lit) rs !! i = Some row' →
  row_col cols "url" row' = Some (PStr u) →
  rs !! i = Some row'.
Proof.
  intros Hne Hi Hu. unfold update_url in Hi.
  destruct (decide (Exists (in_partition cols cid) rs)) as [_|_].
  - rewrite list_lookup_fmap in Hi.
    destruct (rs !! i) as [row|]; [|done]. injection Hi as <-.
    destruct (decide (in_partition cols cid row)) as [_|_]; [|done].
    unfold row_col, row_set in *.
    destruct (col_index cols "url") as [j|]; [|done]. cbn in Hu.
    destruct (decide (j < length row)%nat) as [Hj|Hj].
    + rewrite list_lookup_insert_eq in Hu by done. congruence.
    + by rewrite list_insert_ge by lia.
  - destruct (decide (i < length rs)%nat) as [Hlt|Hge].
    + by rewrite lookup_app_l in Hi.
    + rewrite lookup_app_r in Hi by lia.
      destruct (i - length rs)%nat; [|done]. injection Hi as <-.
      unfold row_col, fresh_row in Hu.
      destruct (col_index cols "url") as [j|] eqn:Hj; [|done]. cbn in Hu.
      rewrite list_lookup_fmap, (col_index_lookup _ _ _ Hj) in Hu.
      cbn in Hu. congruence.
Qed.

(** X11.  What the lookup came back with is pasted between single
    quotes to make the UPDATE.  When its text holds a single quote, the
    text does not reach the table: the statement is rejected or stores
    another text.  The record [score] returns, if it returns one, holds
    the looked-up value all the same; no row that holds the text
    afterwards was written by the call. *)
Theorem quoted_link_never_stored lon lat w predict cl r rest name :
  NoDup (columns w) →
  ml w = Some predict → predict lon lat = Some cl →
  cluster_partition w cl = r :: rest →
  row_col (columns w) "url" r = Some PNone →
  row_col (columns w) "name" r = Some (PStr name) →
  quote_free (py_str (looked_up w name)) = false →
  let u := looked_up w name in
  let out := score lon lat w in
  (∀ d, out.1 = Ok d → d !! "url" = Some u)
  ∧ ∀ i row',
      rows out.2 !! i = Some row' →
      row_col (columns w) "url" row' = Some (PStr (py_str u)) →
      rows w !! i = Some row'.
Proof.
  intros Hnd Hml Hp Hpart Hurl Hname Hq u out. subst out.
  pose proof (partition_head _ _ _ _ Hpart) as Hcid.
  rewrite score_unfold, (score_lookup_ok lon lat w predict cl r rest) by done.
  set (d0 := dict_of_items (zip (columns w) r)).
  set (w0 := with_trace (trace w ++ [EvSelect cl 1]) w).
  assert (∀ c, d0 !! c = row_col (columns w) c r) as Hd
    by (intros c; by apply dict_zip_lookup).
  destruct (score_enrich_outcomes d0 w0)
    as [[Hu' _] | [(u' & Hu' & Hne & _) | [(_ & Hn' & _) | [(n & _ & Hn' & Hn & _)
       | [(name' & _ & _ & Hc' & _) | (name' & c & _ & Hn' & Hc' & H)]]]]].
  - by rewrite Hd, Hurl in Hu'.
  - rewrite Hd, Hurl in Hu'. by injection Hu' as <-.
  - by rewrite Hd, Hname in Hn'.
  - rewrite Hd, Hname in Hn'. injection Hn' as <-. by destruct (Hn name).
  - unfold in_partition in Hcid. by rewrite Hd, Hcid in Hc'.
  - rewrite Hd, Hname in Hn'. injection Hn' as <-.
    unfold in_partition in Hcid. rewrite Hd, Hcid in Hc'. injection Hc' as <-.
    cbn zeta in H. change (looked_up w0 name) with u in H.
    change (py_str (PInt cl)) with (int_repr cl) in H.
    destruct H as [-> | (lit & cid & Hparse & ->)]; cbn.
    + split; [done|]. by intros i row' Hi _.
    + split; [intros d [= <-]; by rewrite lookup_insert_eq|].
      intros i row' Hi Hrow. eapply update_url_other_link; [|exact Hi|exact Hrow].
      by eapply parse_update_quoted.
Qed.

(** X12.  Asking twice.  With distinct column names and a service
    whose answers have no quote in their text, a request that [score]
    answers with a record is answered again when it is repeated, after
    one query and nothing else, whatever the service has become in
    between.  The second record is the first one with the text of its
    link in the place of the link: the very same record whenever the
    link is a string. *)
Theorem score_twice lon lat w d w1 :
  NoDup (columns w) → service_quote_free w →
  score lon lat w = (Ok d, w1) →
  ∃ cl u d2,
    d !! "url" = Some u
    ∧ (d2 = d ∨ d2 = <["url" := PStr (py_str u)]> d)
    ∧ ((∃ s, u = PStr s) → d2 = d)
    ∧ ∀ service,
        let w2 := with_opensearch service w1 in
        score lon lat w2
        = (Ok d2, with_trace (trace w2 ++ [EvSelect cl 1]) w2).
Proof.
  intros Hnd Hsq Hs.
  destruct (score_lookup_outcomes lon lat w)
    as [[_ Hl] | [(p & _ & _ & Hl) | [(p & cl & _ & _ & _ & Hl)
       | (p & cl & r & rest & Hml & Hp & Hpart & _)]]];
    try (rewrite score_unfold, Hl in Hs; done).
  exists cl.
  destruct (score_first_row lon lat w p cl r rest Hnd Hsq Hml Hp Hpart)
    as [[e He] | [(u & Hu & Hne & He) | (name & Hu & Hn & He)]];
    rewrite He in Hs; [done| |]; injection Hs as <- <-.
  - exists u, (dict_of_items (zip (columns w) r)).
    split; [by rewrite dict_zip_lookup|]. split; [by left|].
    split; [done|]. intros service w2.
    apply (score_link_present lon lat w2 p cl r rest u); done.
  - set (v := looked_up w name). set (t := PStr (py_str v)).
    set (d0 := dict_of_items (zip (columns w) r)).
    assert (<["url" := t]> (<["url" := v]> d0) = <["url" := t]> d0) as Hins
      by by rewrite insert_insert_eq.
    exists v, (<["url" := t]> d0).
    split; [by rewrite lookup_insert_eq|]. split; [by right|]. split.
    { intros [s Hv]. unfold t. by rewrite Hv. }
    intros service w2.
    rewrite (score_link_present lon lat w2 p cl
               (row_set (columns w) "url" t r)
               (row_set (columns w) "url" t <$> rest) t); try done.
    + cbn [columns w2 with_opensearch]. by erewrite dict_zip_row_set.
    + by apply (update_url_partition (columns w) cl t (rows w) r rest).
    + by eapply row_col_row_set_eq.
Qed.

End Notebook.

(** * The notebook's example, run through the theorems *)

Lemma sample_columns_NoDup : NoDup sample_columns.
Proof. apply (bool_decide_unpack _). vm_compute. reflexivity. Qed.

(** Small runs of the text functions. *)
Example py_str_examples :
  py_str sample_float_repr (PStr "it's") = "it's"
  ∧ py_str sample_float_repr PNone = "None"
  ∧ py_str sample_float_repr (PBool true) = "True"
  ∧ py_str sample_float_repr (PList [PStr "it's"; PNone; PInt 3])
    = "[" +:+ dquote +:+ "it's" +:+ dquote +:+ ", None, 3]"
  ∧ py_str sample_float_repr (PDict [("a", PList []); ("b", PStr "c")])
    = "{'a': [], 'b': 'c'}"
  ∧ json_value sample_float_repr
      (PDict [("a", PList [PBool false; PNone]); ("b", PStr "c")])
    = "{" +:+ dquote +:+ "a" +:+ dquote +:+ ": [false, null], "
          +:+ dquote +:+ "b" +:+ dquote +:+ ": " +:+ dquote +:+ "c"
          +:+ dquote +:+ "}".
Proof. repeat split; vm_compute; reflexivity. Qed.

Example int_repr_examples :
  int_repr 16 = "16" ∧ int_repr (-74) = "-74" ∧ int_repr 0 = "0"
  ∧ int_of_str "133" = Some 133 ∧ int_of_str "-0" = Some 0
  ∧ int_of_str "1.5" = None.
Proof. repeat split; reflexivity. Qed.

Example number_shape_examples :
  number_shape "16" = Some IntLit
  ∧ number_shape "-74.0160512924" = Some FloatLit
  ∧ number_shape "1e-07" = Some FloatLit
  ∧ number_shape "016" = None
  ∧ number_shape "40." = None
  ∧ number_shape "-" = None.
Proof. repeat split; reflexivity. Qed.

Example json_escape_examples :
  json_escape "Battery Park" = "Battery Park"
  ∧ json_escape (String "009" "a\b") = "\ta\\b"
  ∧ json_escape (String "233" "") = "\u00e9"
  ∧ scanstring (json_escape (String "233" "") +:+ dquote +:+ ", ")
    = Some (String "233" "", ", ").
Proof. repeat split; reflexivity. Qed.

Example parse_update_examples :
  parse_update "UPDATE lbsn.kmeans_topvenues SET url = '' WHERE cid = 16"
  = Some ("", 16)
  ∧ parse_update
      "UPDATE lbsn.kmeans_topvenues SET url = 'it''s' WHERE cid = 3"
    = Some ("it's", 3)
  ∧ parse_update
      "UPDATE lbsn.kmeans_topvenues SET url = 'it's' WHERE cid = 3"
    = None
  ∧ parse_update
      "UPDATE lbsn.kmeans_topvenues SET url = 'x' WHERE cid = None"
    = None.
Proof. repeat split; reflexivity. Qed.

(** [geturl] outside its [try]: [quote] of something that is no string
    raises, before any request. *)
Example geturl_of_None :
  ∀ w, geturl sample_quote PNone w = (Raise TypeError, w).
Proof. reflexivity. Qed.

(** The cell [score(-74.01, 40.7)], on a table whose link is still
    absent and a service that knows the page: the record the notebook
    shows, one query, one external call and one write. *)
Example score_battery_park :
  let out := score sample_quote sample_float_repr lon_m74_01 lat_40_7
               (sample_world PNone service_up) in
  out.1 = Ok (battery_park_record (PStr battery_park_url))
  ∧ rows out.2 = [battery_park_row (PStr battery_park_url)]
  ∧ trace out.2
    = [EvSelect 16 1;
       EvUrlopen "https://en.wikipedia.org/w/api.php?action=opensearch&search=Battery%20Park&limit=1&format=json";
       EvUpdate "UPDATE lbsn.kmeans_topvenues SET url = 'https://en.wikipedia.org/wiki/Battery_Park' WHERE cid = 16"].
Proof. repeat split; vm_compute; reflexivity. Qed.

(** The cell [recommender(-74.01, 40.7, 'html', notebook=True)]. *)
Example recommender_battery_park_html :
  (recommender sample_quote sample_float_repr lon_m74_01 lat_40_7 "html" true
     (sample_world PNone service_up)).1
  = Ok (HTML ("What about visiting the <a href=" +:+ dquote
                +:+ battery_park_url +:+ dquote +:+ ">Battery Park</a>?")).
Proof. vm_compute. reflexivity. Qed.

(** C1, counterexample: with the unknown format ["xml"] the call on the
    notebook's coordinate raises nothing; it returns the JSON text of the
    Battery Park record. *)
Lemma recommender_xml_not_rejected :
  (recommender sample_quote sample_float_repr lon_m74_01 lat_40_7 "xml" false
     (sample_world (PStr battery_park_url) service_up)).1
  = Ok (Text (json_dumps sample_float_repr
                (battery_park_record (PStr battery_park_url)))).
Proof. vm_compute. reflexivity. Qed.

(** C1, as amended, on the notebook's coordinate. *)
Lemma recommender_unknown_format_witness :
  "xml" ≠ "html"
  ∧ recommender sample_quote sample_float_repr lon_m74_01 lat_40_7 "xml" false
      (sample_world PNone service_up)
    = recommender sample_quote sample_float_repr lon_m74_01 lat_40_7 "json"
        false (sample_world PNone service_up).
Proof.
  assert ("xml" ≠ "html") as H by discriminate.
  split; [exact H|].
  exact (proj1 (recommender_unknown_format_is_json sample_quote
                  sample_float_repr lon_m74_01 lat_40_7 "xml" false
                  (sample_world PNone service_up) H)).
Defined.

(** C2 on the Battery Park record with its link set. *)
Lemma score_enrich_idempotent_witness :
  let d := battery_park_record (PStr battery_park_url) in
  let w := sample_world (PStr battery_park_url) service_down in
  score_enrich sample_quote sample_float_repr d w = (Ok d, w)
  ∧ (let* d1 := score_enrich sample_quote sample_float_repr d
     in score_enrich sample_quote sample_float_repr d1) w = (Ok d, w).
Proof.
  intros d w.
  apply (score_enrich_idempotent sample_quote sample_float_repr d
           (PStr battery_park_url) w).
  - vm_compute. reflexivity.
  - discriminate.
Defined.

(** C3, counterexample: the link of this record is present, it is the
    empty string that a failed lookup leaves behind; the sentence comes
    out plain, not wrapped in an anchor. *)
Lemma html_template_empty_link_plain :
  let d := battery_park_record (PStr "") in
  d !! "url" = Some (PStr "")
  ∧ (html_template sample_float_repr d (sample_world (PStr "") service_up)).1
    = Ok ("What about visiting the Battery Park?",
          <["url_html" := PStr "Battery Park"]> d)
  ∧ ∀ d', (html_template sample_float_repr d
             (sample_world (PStr "") service_up)).1
          ≠ Ok ("What about visiting the <a href=" +:+ dquote +:+ ""
                  +:+ dquote +:+ ">Battery Park</a>?", d').
Proof.
  intros d. split; [vm_compute; reflexivity|].
  assert ((html_template sample_float_repr d
             (sample_world (PStr "") service_up)).1
          = Ok ("What about visiting the Battery Park?",
                <["url_html" := PStr "Battery Park"]> d)) as H.
  { rewrite (html_template_ok sample_float_repr d (PStr "")
               (PStr "Battery Park")); [reflexivity|..];
      vm_compute; reflexivity. }
  split; [exact H|]. intros d'. rewrite H. intros E. inversion E.
Qed.

(** C3, as amended, on the Battery Park record with its link set. *)
Lemma html_template_sentence_witness :
  let d := battery_park_record (PStr battery_park_url) in
  let w := sample_world (PStr battery_park_url) service_up in
  ∃ d', html_template sample_float_repr d w
        = (Ok ("What about visiting the <a href=" +:+ dquote
                 +:+ battery_park_url +:+ dquote +:+ ">" +:+ "Battery Park"
                 +:+ "</a>?", d'), w).
Proof.
  intros d w.
  refine (proj2 (html_template_sentence sample_float_repr d "Battery Park"
                   (PStr battery_park_url) w _ _) battery_park_url eq_refl _).
  - vm_compute. reflexivity.
  - vm_compute. reflexivity.
  - discriminate.
Defined.

(** C4 on the Battery Park record as stored, with the floats of the
    notebook's output. *)
Lemma json_roundtrip_witness :
  let d := battery_park_record PNone in
  record_roundtrips sample_float_repr sample_float_of_str d = true
  ∧ json_loads sample_float_of_str (json_dumps sample_float_repr d) = Some d.
Proof.
  intros d.
  assert (record_roundtrips sample_float_repr sample_float_of_str d = true)
    as H by (vm_compute; reflexivity).
  split; [exact H|].
  exact (proj1 (json_roundtrip sample_float_repr sample_float_of_str d H)).
Defined.

(** C5 on the notebook's coordinate, classified to cluster 16. *)
Lemma score_lookup_cid_witness :
  let w := sample_world PNone service_up in
  (cluster_partition w 16 ≠ [] →
   ∃ d, score_lookup lon_m74_01 lat_40_7 w
        = (Ok d, with_trace (trace w ++ [EvSelect 16 1]) w))
  ∧ (∀ d w', score_lookup lon_m74_01 lat_40_7 w = (Ok d, w') →
             d !! "cid" = Some (PInt 16)
             ∧ w' = with_trace (trace w ++ [EvSelect 16 1]) w)
  ∧ (∀ d w', score sample_quote sample_float_repr lon_m74_01 lat_40_7 w
             = (Ok d, w') → d !! "cid" = Some (PInt 16)).
Proof.
  intros w.
  apply (score_lookup_cid sample_quote sample_float_repr lon_m74_01 lat_40_7
           w sample_predict 16).
  - exact sample_columns_NoDup.
  - reflexivity.
  - vm_compute. reflexivity.
Defined.

(** C6 on a coordinate classified to cluster 3, which has no row. *)
Lemma empty_partition_raises_witness :
  let w := sample_world PNone service_up in
  let w' := with_trace (trace w ++ [EvSelect 3 1]) w in
  score sample_quote sample_float_repr lat_40_7 lat_40_7 w
  = (Raise IndexError, w')
  ∧ (∀ format notebook,
       recommender sample_quote sample_float_repr lat_40_7 lat_40_7 format
         notebook w = (Raise IndexError, w'))
  ∧ (∀ slon slat,
       sample_float_of_str slon = Some lat_40_7 →
       sample_float_of_str slat = Some lat_40_7 →
       recommender_api sample_quote sample_float_repr sample_float_of_str
         slon slat w = (Raise IndexError, w')).
Proof.
  intros w.
  apply (empty_partition_raises sample_quote sample_float_repr
           sample_float_of_str lat_40_7 lat_40_7 w sample_predict 3).
  - reflexivity.
  - vm_compute. reflexivity.
  - vm_compute. reflexivity.
Defined.

(** C7 on the notebook's coordinate.  With the service down the request
    is answered with an empty link; with a service whose link holds a
    quote the UPDATE is rejected and the request ends with that
    rejection. *)
Lemma lookup_failure_swallowed_witness :
  let w := sample_world PNone service_down in
  let wq := sample_world PNone service_quoted in
  let stmt := update_prefix +:+ quoted_url +:+ "'" +:+ update_where
                +:+ int_repr 16 in
  (∃ d w1,
    score sample_quote sample_float_repr lon_m74_01 lat_40_7 w = (Ok d, w1)
    ∧ d !! "url" = Some (PStr "")
    ∧ (∀ c, c ≠ "url" → d !! c = row_col (columns w) c (battery_park_row PNone))
    ∧ ∀ format notebook, ∃ resp,
        recommender sample_quote sample_float_repr lon_m74_01 lat_40_7 format
          notebook w = (Ok resp, w1))
  ∧ score sample_quote sample_float_repr lon_m74_01 lat_40_7 wq
    = (Raise (CqlError stmt),
       with_trace [EvSelect 16 1;
                   EvUrlopen (opensearch_url (sample_quote "Battery Park"));
                   EvUpdate stmt] wq).
Proof.
  intros w wq stmt.
  destruct (lookup_failure_swallowed sample_quote sample_float_repr
              sample_float_of_str lon_m74_01 lat_40_7 w sample_predict 16
              (battery_park_row PNone) [] "Battery Park")
    as (_ & Hrequest & Hsteps & _).
  - exact sample_columns_NoDup.
  - reflexivity.
  - vm_compute. reflexivity.
  - vm_compute. reflexivity.
  - vm_compute. reflexivity.
  - vm_compute. reflexivity.
  - left. reflexivity.
  - split; [exact Hrequest|].
    destruct (Hsteps lon_m74_01 lat_40_7 wq) as (_ & _ & _ & _ & Henrich).
    destruct (Henrich (battery_park_record PNone)
                (with_trace [EvSelect 16 1] wq))
      as [_ Hnone]; [vm_compute; reflexivity|].
    destruct Hnone as [_ Hname]; [vm_compute; reflexivity|].
    destruct (Hname (PStr "Battery Park")) as [_ Hgot];
      [vm_compute; reflexivity|].
    destruct (Hgot (PStr quoted_url)
                (with_trace
                   [EvSelect 16 1;
                    EvUrlopen (opensearch_url (sample_quote "Battery Park"))]
                   wq))
      as [_ Hupdate]; [vm_compute; reflexivity|].
    apply (Hupdate (PInt 16)); vm_compute; reflexivity.
Defined.

(** C9 on the notebook's coordinate with a service that lists no page,
    followed by two more requests for the same place. *)
Lemma failed_lookup_cached_witness :
  let w := sample_world PNone service_no_result in
  let again := [(lon_m74_01, lat_40_7); (lon_m74_01, lat_40_7)] in
  ∃ d w1,
    score sample_quote sample_float_repr lon_m74_01 lat_40_7 w = (Ok d, w1)
    ∧ d !! "url" = Some (PStr "")
    ∧ rows w1 = update_url (columns w) 16 (PStr "") (rows w)
    ∧ ∃ ds, score_all sample_quote sample_float_repr again w1
            = (Ok ds, with_trace (trace w1 ++ [EvSelect 16 1; EvSelect 16 1]) w1)
            ∧ Forall (λ d2, d2 !! "url" = Some (PStr "")) ds.
Proof.
  intros w again.
  destruct (failed_lookup_cached_forever sample_quote sample_float_repr
              lon_m74_01 lat_40_7 w sample_predict 16 (battery_park_row PNone)
              [] "Battery Park")
    as (d & w1 & Hs & Hu & _ & Hrows & _ & Hall).
  - exact sample_columns_NoDup.
  - reflexivity.
  - vm_compute. reflexivity.
  - vm_compute. reflexivity.
  - vm_compute. reflexivity.
  - vm_compute. reflexivity.
  - right. reflexivity.
  - exists d, w1. split; [exact Hs|]. split; [exact Hu|]. split; [exact Hrows|].
    apply (Hall again). repeat constructor.
Defined.

(** The service is down for the first request and up again for the
    second: the second still answers with the empty link, after a single
    query. *)
Example empty_link_survives_recovery :
  let w1 := (score sample_quote sample_float_repr lon_m74_01 lat_40_7
               (sample_world PNone service_down)).2 in
  let out := score sample_quote sample_float_repr lon_m74_01 lat_40_7
               (with_trace [] (with_opensearch service_up w1)) in
  out.1 = Ok (battery_park_record (PStr ""))
  ∧ trace out.2 = [EvSelect 16 1]
  ∧ rows out.2 = [battery_park_row (PStr "")].
Proof. repeat split; vm_compute; reflexivity. Qed.

(** C10 on the record [score] returns for the notebook's coordinate. *)
Lemma narrative_render_mutates_witness :
  let w := sample_world (PStr battery_park_url) service_up in
  let d := battery_park_record (PStr battery_park_url) in
  let w1 := with_trace [EvSelect 16 1] w in
  (∃ out d', render sample_float_repr d "html" w1 = (Ok (out, d'), w1)
             ∧ d !! "url_html" = None
             ∧ is_Some (d' !! "url_html")
             ∧ d' ≠ d
             ∧ ∀ k, k ≠ "url_html" → d' !! k = d !! k)
  ∧ render sample_float_repr d "json" w1
    = (Ok (json_dumps sample_float_repr d, d), w1).
Proof.
  intros w d w1.
  apply (narrative_render_mutates_record sample_quote sample_float_repr
           lon_m74_01 lat_40_7 w d w1).
  - exact sample_columns_NoDup.
  - apply (bool_decide_unpack _). vm_compute. reflexivity.
  - vm_compute. reflexivity.
  - exists (PStr "Battery Park"). vm_compute. reflexivity.
Defined.

(** C8 on the notebook's coordinate, and on a latitude that is no number. *)
Example recommender_api_example :
  let w := sample_world (PStr battery_park_url) service_up in
  (recommender_api sample_quote sample_float_repr sample_float_of_str
     "-74.01" "40.7" w).1
  = Ok (Text (json_dumps sample_float_repr
                (battery_park_record (PStr battery_park_url))))
  ∧ recommender_api sample_quote sample_float_repr sample_float_of_str
      "-74.01" "north" w
    = (Raise ValueError, w).
Proof. split; vm_compute; reflexivity. Qed.

(** C8 on the notebook's coordinate with the link not yet stored: the
    request goes through the classification, the query, the lookup and
    the write, and answers with the JSON text of the enriched record. *)
Lemma recommender_api_pipeline_witness :
  let w := sample_world PNone service_up in
  let d := battery_park_record PNone in
  let link := PStr battery_park_url in
  recommender_api sample_quote sample_float_repr sample_float_of_str
    "-74.01" "40.7" w
  = (Ok (Text (json_dumps sample_float_repr (<["url" := link]> d))),
     World (ml w) (columns w)
       (update_url (columns w) 16 link (rows w)) (opensearch w)
       [EvSelect 16 1;
        EvUrlopen (opensearch_url (sample_quote "Battery Park"));
        EvUpdate (update_prefix +:+ battery_park_url +:+ "'"
                    +:+ update_where +:+ int_repr 16)])
  ∧ recommender_api sample_quote sample_float_repr sample_float_of_str
      "-74.01" "north" w
    = (Raise ValueError, w).
Proof.
  intros w d link.
  pose proof (recommender_api_pipeline sample_quote sample_float_repr
                sample_float_of_str "-74.01" "40.7" w) as (_ & _ & Hrun).
  pose proof (recommender_api_pipeline sample_quote sample_float_repr
                sample_float_of_str "-74.01" "north" w) as (_ & Hlat & _).
  split.
  - exact (proj2 (Hrun lon_m74_01 lat_40_7 sample_predict 16
                    (battery_park_row PNone) [] "Battery Park"
                    eq_refl eq_refl sample_columns_NoDup eq_refl
                    ltac:(vm_compute; reflexivity)
                    ltac:(vm_compute; reflexivity)
                    ltac:(vm_compute; reflexivity))
             ltac:(vm_compute; reflexivity)
             ltac:(vm_compute; reflexivity)).
  - apply Hlat; [by eexists|reflexivity].
Defined.

(** * The further properties on the notebook's example *)

Lemma service_up_quote_free url :
  service_quote_free sample_float_repr (sample_world url service_up).
Proof. intros q u us [= <- _]. reflexivity. Qed.


(** X3 on the notebook's coordinate, link not yet stored: the one row of
    the table keeps its length and its name. *)
Lemma score_changes_links_only_witness :
  let w := sample_world PNone service_up in
  let w' := (score sample_quote sample_float_repr lon_m74_01 lat_40_7 w).2 in
  length (rows w') = 1%nat
  ∧ ∃ row', rows w' !! 0%nat = Some row'
      ∧ length row' = 6%nat
      ∧ row_col sample_columns "name" row' = Some (PStr "Battery Park").
Proof.
  intros w w'.
  destruct (score_changes_links_only sample_quote sample_float_repr
              lon_m74_01 lat_40_7 w sample_columns_NoDup
              (service_up_quote_free PNone))
    as (_ & _ & _ & Hlen & Hrows).
  split; [exact Hlen|].
  destruct (Hrows 0%nat (battery_park_row PNone) eq_refl)
    as (row' & Hi & Hl & Hc & _).
  exists row'. split; [exact Hi|]. split; [exact Hl|].
  exact (Hc "name" ltac:(discriminate)).
Defined.

(** X4 on a coordinate of cluster 3, which has no row. *)
Lemma failed_request_leaves_table_witness :
  let w := sample_world PNone service_up in
  let out := score sample_quote sample_float_repr lat_40_7 lat_40_7 w in
  out.1 = Raise IndexError ∧ rows out.2 = rows w.
Proof.
  intros w out.
  assert (out.1 = Raise IndexError) as H by (vm_compute; reflexivity).
  split; [exact H|].
  apply (proj1 (failed_request_leaves_table sample_quote sample_float_repr
                  sample_float_of_str w) lat_40_7 lat_40_7 IndexError out.2).
  apply injective_projections; [exact H|reflexivity].
Defined.

(** X5 on the notebook's coordinate: the link of Battery Park is looked
    up in the first request and read from the table in the second. *)
Lemma looked_up_link_is_cached_witness :
  let w := sample_world PNone service_up in
  ∃ d w1,
    score sample_quote sample_float_repr lon_m74_01 lat_40_7 w = (Ok d, w1)
    ∧ d !! "url" = Some (PStr battery_park_url)
    ∧ <["url" := PStr battery_park_url]> d = d
    ∧ score sample_quote sample_float_repr lon_m74_01 lat_40_7
        (with_opensearch service_down w1)
      = (Ok (<["url" := PStr battery_park_url]> d),
         with_trace (trace w1 ++ [EvSelect 16 1])
           (with_opensearch service_down w1)).
Proof.
  intros w.
  destruct (looked_up_link_is_cached sample_quote sample_float_repr
              lon_m74_01 lat_40_7 w sample_predict 16 (battery_park_row PNone)
              [] "Battery Park")
    as (d & w1 & Hs & Hu & Hrows & Hnext & Hsame).
  - exact sample_columns_NoDup.
  - reflexivity.
  - vm_compute. reflexivity.
  - vm_compute. reflexivity.
  - vm_compute. reflexivity.
  - vm_compute. reflexivity.
  - vm_compute. reflexivity.
  - exists d, w1. split; [exact Hs|]. split; [exact Hu|].
    split; [exact (proj1 Hsame (ex_intro _ battery_park_url eq_refl))|].
    apply (Hnext (with_opensearch service_down w1) sample_predict).
    + change (columns w1 = columns w).
      pose proof (f_equal (λ p, columns p.2) Hs) as Hc. cbn in Hc.
      rewrite <- Hc. vm_compute. reflexivity.
    + reflexivity.
    + change (ml w1 = Some sample_predict).
      pose proof (f_equal (λ p, ml p.2) Hs) as Hm. cbn in Hm.
      rewrite <- Hm. reflexivity.
    + vm_compute. reflexivity.
Defined.

(** The run X1 and X5 allow for: the first result of the service is
    [null].  The first request answers with [None] as the link and
    stores the text [None]; the second answers with that text. *)
Example null_link_run :
  let w := sample_world PNone service_null in
  let first := score sample_quote sample_float_repr lon_m74_01 lat_40_7 w in
  let second := score sample_quote sample_float_repr lon_m74_01 lat_40_7
                  first.2 in
  first.1 = Ok (battery_park_record PNone)
  ∧ rows first.2 = [battery_park_row (PStr "None")]
  ∧ second.1 = Ok (battery_park_record (PStr "None")).
Proof. repeat split; vm_compute; reflexivity. Qed.

(** X6 on a row of cluster 16 whose name and link are both null. *)
Lemma score_null_name_raises_witness :
  let w := World (Some sample_predict) sample_columns [nameless_row]
             service_up [] in
  score sample_quote sample_float_repr lon_m74_01 lat_40_7 w
  = (Raise TypeError, with_trace [EvSelect 16 1] w).
Proof.
  intros w.
  apply (score_null_name_raises sample_quote sample_float_repr
           lon_m74_01 lat_40_7 w sample_predict 16 nameless_row [] PNone).
  - exact sample_columns_NoDup.
  - reflexivity.
  - vm_compute. reflexivity.
  - vm_compute. reflexivity.
  - vm_compute. reflexivity.
  - vm_compute. reflexivity.
  - discriminate.
Defined.

(** X7 on the Battery Park record with its link set. *)
Lemma html_template_twice_witness :
  let d := battery_park_record (PStr battery_park_url) in
  let w := sample_world (PStr battery_park_url) service_up in
  let a := link sample_float_repr (PStr battery_park_url)
             (PStr "Battery Park") in
  let out := "What about visiting the " +:+ py_str sample_float_repr a
               +:+ "?" in
  let d1 := <["url_html" := a]> d in
  html_template sample_float_repr d w = (Ok (out, d1), w)
  ∧ html_template sample_float_repr d1 w = (Ok (out, d1), w).
Proof.
  intros d w a out d1.
  assert (html_template sample_float_repr d w = (Ok (out, d1), w)) as H
    by (apply html_template_ok; vm_compute; reflexivity).
  split; [exact H|].
  exact (proj2 (html_template_twice sample_float_repr d w out d1 w H)).
Defined.

(** X8 on the notebook's coordinate with the link stored, in a format
    the notebook does not know. *)
Lemma recommender_after_score_witness :
  let w := sample_world (PStr battery_park_url) service_up in
  let d := battery_park_record (PStr battery_park_url) in
  ∃ url, d !! "url" = Some url
    ∧ recommender sample_quote sample_float_repr lon_m74_01 lat_40_7 "xml"
        true w
      = (Ok (HTML (json_dumps sample_float_repr d)),
         with_trace [EvSelect 16 1] w).
Proof.
  intros w d.
  destruct (proj2 (recommender_after_score sample_quote sample_float_repr
                     lon_m74_01 lat_40_7 w d (with_trace [EvSelect 16 1] w)
                     ltac:(vm_compute; reflexivity))
              (PStr "Battery Park") ltac:(vm_compute; reflexivity))
    as (url & Hu & Hr).
  exists url. split; [exact Hu|]. exact (Hr "xml" true).
Defined.

(** X9 on the endpoint at the notebook's coordinate. *)
Lemma recommender_api_response_witness :
  let w := sample_world (PStr battery_park_url) service_up in
  let d := battery_park_record (PStr battery_park_url) in
  ∃ lon lat d',
    sample_float_of_str "-74.01" = Some lon
    ∧ sample_float_of_str "40.7" = Some lat
    ∧ score sample_quote sample_float_repr lon lat w
      = (Ok d', with_trace [EvSelect 16 1] w)
    ∧ Text (json_dumps sample_float_repr d)
      = Text (json_dumps sample_float_repr d')
    ∧ is_Some (d' !! "name")
    ∧ is_Some (d' !! "url").
Proof.
  intros w d.
  apply (recommender_api_response sample_quote sample_float_repr
           sample_float_of_str "-74.01" "40.7" w).
  vm_compute. reflexivity.
Defined.

(** X10 on the endpoint at the notebook's coordinate. *)
Lemma recommender_api_serves_row_witness :
  let w := sample_world (PStr battery_park_url) service_up in
  ∃ body d,
    recommender_api sample_quote sample_float_repr sample_float_of_str
      "-74.01" "40.7" w
    = (Ok (Text body), with_trace (trace w ++ [EvSelect 16 1]) w)
    ∧ json_loads sample_float_of_str body = Some d
    ∧ ∀ c, d !! c
           = row_col (columns w) c (battery_park_row (PStr battery_park_url)).
Proof.
  intros w.
  apply (recommender_api_serves_row sample_quote sample_float_repr
           sample_float_of_str "-74.01" "40.7" lon_m74_01 lat_40_7 w
           sample_predict 16 (battery_park_row (PStr battery_park_url)) []
           (PStr battery_park_url)).
  - exact sample_columns_NoDup.
  - reflexivity.
  - reflexivity.
  - reflexivity.
  - vm_compute. reflexivity.
  - vm_compute. reflexivity.
  - vm_compute. reflexivity.
  - discriminate.
  - exists (PStr "Battery Park"). vm_compute. reflexivity.
  - vm_compute. reflexivity.
Defined.

(** X11 on the notebook's coordinate with a service whose link holds a
    quote: the statement is rejected and the stored link stays null. *)
Lemma quoted_link_never_stored_witness :
  let w := sample_world PNone service_quoted in
  let out := score sample_quote sample_float_repr lon_m74_01 lat_40_7 w in
  quote_free quoted_url = false
  ∧ ∀ i row',
      rows out.2 !! i = Some row' →
      row_col sample_columns "url" row' = Some (PStr quoted_url) →
      rows w !! i = Some row'.
Proof.
  intros w out. split; [reflexivity|].
  apply (proj2 (quoted_link_never_stored sample_quote sample_float_repr
                  lon_m74_01 lat_40_7 w sample_predict 16
                  (battery_park_row PNone) [] "Battery Park"
                  sample_columns_NoDup eq_refl
                  ltac:(vm_compute; reflexivity) ltac:(vm_compute; reflexivity)
                  ltac:(vm_compute; reflexivity) ltac:(vm_compute; reflexivity)
                  ltac:(vm_compute; reflexivity))).
Defined.

(** X12 on the notebook's coordinate: the first request looks the link
    up, the second is made with the service down. *)
Lemma score_twice_witness :
  let w := sample_world PNone service_up in
  let d := battery_park_record (PStr battery_park_url) in
  let out := score sample_quote sample_float_repr lon_m74_01 lat_40_7 w in
  out.1 = Ok d
  ∧ ∃ cl,
      let w2 := with_opensearch service_down out.2 in
      score sample_quote sample_float_repr lon_m74_01 lat_40_7 w2
      = (Ok d, with_trace (trace w2 ++ [EvSelect cl 1]) w2).
Proof.
  intros w d out.
  assert (out.1 = Ok d) as H by (vm_compute; reflexivity).
  split; [exact H|].
  destruct (score_twice sample_quote sample_float_repr lon_m74_01 lat_40_7
              w d out.2 sample_columns_NoDup (service_up_quote_free PNone))
    as (cl & u & d2 & Hu & _ & Hsame & Hcl).
  - apply injective_projections; [exact H|reflexivity].
  - exists cl.
    assert (u = PStr battery_park_url) as Hlink.
    { assert (d !! "url" = Some (PStr battery_park_url)) as E
        by (vm_compute; reflexivity).
      rewrite E in Hu. by injection Hu. }
    pose proof (Hcl service_down) as Hrun.
    rewrite (Hsame (ex_intro _ battery_park_url Hlink)) in Hrun.
    exact Hrun.
Defined.

(** The run behind X11: the request fails in the UPDATE, after the
    external call, and leaves the table as it was. *)
Example quoted_link_run :
  let w := sample_world PNone service_quoted in
  let out := score sample_quote sample_float_repr lon_m74_01 lat_40_7 w in
  out.1 = Raise (CqlError (update_prefix +:+ quoted_url +:+ "'"
                             +:+ update_where +:+ "16"))
  ∧ rows out.2 = rows w.
Proof. split; vm_compute; reflexivity. Qed.
